(** * SMS sending dashboard (app.py): dispatch loop, daily quota, run record

    A shallow embedding of the send path of [app.py]: [load_config] /
    [save_config], [run_adb_command], [send_sms], [send_all_sms] and the
    handlers [api_config], [api_start_send], [api_stop_send],
    [api_send_status], [api_send_stream], [api_get_logs],
    [api_get_log_detail], [api_delete_log], [api_get_daily_count],
    [api_reset_daily_count].

    The worker thread is a computation in a state monad over [World]: the
    files the program owns (config.json, contacts.csv, logs/), the module
    globals [send_status] and [log_queue], and the environment the worker
    cannot control, given as tapes that the worker consumes: the wall clock,
    the answers of the ADB subprocess, and the requests that other Flask
    threads serve between two steps of the worker. *)

From stdpp Require Import base option list strings gmap pretty.
From Stdlib Require Import ZArith Lia Ascii.

Set Default Proof Using "Type".
Set Warnings "-register-all".

(** ** Data *)

(** A row of contacts.csv as [load_contacts] returns it. *)
Record Contact := mkContact {
  id : nat;
  phone : string;
  name : string;
  message : string;
  enabled : bool
}.

(** The dict of config.json with the keys the program reads.  Counts are
    JSON integers, the delay is a number of seconds (non-negative: it is
    handed to [time.sleep]). *)
Record Config := mkConfig {
  default_message : string;
  adb_path : string;
  send_delay_seconds : nat;
  retry_count : Z;
  scheduled_time : string;
  dry_run : bool;
  send_method : string;
  send_button_x : Z;
  send_button_y : Z;
  max_send_count : Z;
  daily_sent_count : Z;
  daily_sent_date : string
}.

(** [datetime.now()] through the three renderings the program takes of it. *)
Record datetime := mkDatetime {
  strftime_date : string;     (* strftime('%Y-%m-%d') *)
  isoformat : string;         (* isoformat() *)
  strftime_stamp : string     (* strftime('%Y%m%d_%H%M%S') *)
}.

(** [log_entry] of the dispatch loop. *)
Record LogEntry := mkLogEntry {
  index : nat;
  entry_phone : string;
  entry_name : string;
  timestamp : string;
  success : bool;
  result : string
}.

(** The global [send_status].  The dict has three shapes in the source; a
    key that a shape does not have is [None] here ([start_time] is always
    present and is [None] before the first run). *)
Record SendStatus := mkSendStatus {
  is_running : bool;
  current : nat;
  total : nat;
  results : list LogEntry;
  start_time : option string;
  error : option string;
  max_count : option Z;
  daily_sent_before : option Z
}.

(** A JSON document: what [json.dump] writes and [json.load] returns.  Files
    under logs/ hold documents; the text layer of the [json] module is not
    modelled. *)
Inductive json :=
  | JNull
  | JBool (b : bool)
  | JInt (z : Z)
  | JStr (s : string)
  | JArr (items : list json)
  | JObj (fields : list (string * json)).

(** [subprocess.run] as [run_adb_command] reports it:
    [(returncode == 0, stdout, stderr)]. *)
Definition AdbResult : Type := bool * string * string.

(** Requests that other threads of the Flask server serve while the worker
    runs.  Read-only handlers change nothing and are left out.  So are the
    two handlers that delete log files ([api_delete_log],
    [api_clear_all_logs]), and an accepted [/api/send/start], which puts a
    second worker next to this one: that one is [stop_then_start] below,
    run at a point of [send_loop_with]. *)
Inductive Request :=
  | ReqStop                               (* POST /api/send/stop *)
  | ReqConfigPost (c : Config)            (* POST /api/config *)
  | ReqResetDailyCount                    (* POST /api/daily-count/reset *)
  | ReqContactsWrite (cs : list Contact)  (* a handler ending in save_contacts *)
  | ReqStreamGet.                         (* log_queue.get() of a stream client *)

(** What the worker does to the outside, in order. *)
Inductive Event :=
  | EvLoadConfig (c : Config)
  | EvSaveConfig (c : Config)
  | EvSendSms (to body : string)
  | EvAdb (cmd : string) (r : AdbResult)
  | EvSleep (ms : nat)
  | EvPut (e : LogEntry)
  | EvMkdir
  | EvWriteLog (file : string) (doc : json).

Record World := mkWorld {
  config_file : option Config;            (* CONFIG_PATH; None: no such file *)
  contacts_file : list Contact;           (* CSV_PATH, parsed *)
  log_dir : option (gmap string json);    (* LOG_DIR; None: no such directory *)
  send_status : SendStatus;
  log_queue : list LogEntry;
  clock : list datetime;                  (* answers of datetime.now() to come *)
  device : list AdbResult;                (* answers of subprocess.run to come *)
  requests : list (list Request);         (* requests served before each step *)
  trace : list Event
}.

(** Field updates. *)
Definition with_config_file (f : option Config) (w : World) : World :=
  mkWorld f (contacts_file w) (log_dir w) (send_status w) (log_queue w)
          (clock w) (device w) (requests w) (trace w).
Definition with_contacts_file (cs : list Contact) (w : World) : World :=
  mkWorld (config_file w) cs (log_dir w) (send_status w) (log_queue w)
          (clock w) (device w) (requests w) (trace w).
Definition with_log_dir (d : option (gmap string json)) (w : World) : World :=
  mkWorld (config_file w) (contacts_file w) d (send_status w) (log_queue w)
          (clock w) (device w) (requests w) (trace w).
Definition with_send_status (st : SendStatus) (w : World) : World :=
  mkWorld (config_file w) (contacts_file w) (log_dir w) st (log_queue w)
          (clock w) (device w) (requests w) (trace w).
Definition with_log_queue (q : list LogEntry) (w : World) : World :=
  mkWorld (config_file w) (contacts_file w) (log_dir w) (send_status w) q
          (clock w) (device w) (requests w) (trace w).
Definition with_clock (ts : list datetime) (w : World) : World :=
  mkWorld (config_file w) (contacts_file w) (log_dir w) (send_status w)
          (log_queue w) ts (device w) (requests w) (trace w).
Definition with_device (rs : list AdbResult) (w : World) : World :=
  mkWorld (config_file w) (contacts_file w) (log_dir w) (send_status w)
          (log_queue w) (clock w) rs (requests w) (trace w).
Definition with_requests (rq : list (list Request)) (w : World) : World :=
  mkWorld (config_file w) (contacts_file w) (log_dir w) (send_status w)
          (log_queue w) (clock w) (device w) rq (trace w).
Definition emit (ev : Event) (w : World) : World :=
  mkWorld (config_file w) (contacts_file w) (log_dir w) (send_status w)
          (log_queue w) (clock w) (device w) (requests w) (trace w ++ [ev]).

Definition with_is_running (b : bool) (st : SendStatus) : SendStatus :=
  mkSendStatus b (current st) (total st) (results st) (start_time st)
               (error st) (max_count st) (daily_sent_before st).
Definition with_current (n : nat) (st : SendStatus) : SendStatus :=
  mkSendStatus (is_running st) n (total st) (results st) (start_time st)
               (error st) (max_count st) (daily_sent_before st).
Definition with_results (l : list LogEntry) (st : SendStatus) : SendStatus :=
  mkSendStatus (is_running st) (current st) (total st) l (start_time st)
               (error st) (max_count st) (daily_sent_before st).

Definition with_daily_sent_count (n : Z) (c : Config) : Config :=
  mkConfig (default_message c) (adb_path c) (send_delay_seconds c)
           (retry_count c) (scheduled_time c) (dry_run c) (send_method c)
           (send_button_x c) (send_button_y c) (max_send_count c) n
           (daily_sent_date c).
Definition with_daily_sent_date (d : string) (c : Config) : Config :=
  mkConfig (default_message c) (adb_path c) (send_delay_seconds c)
           (retry_count c) (scheduled_time c) (dry_run c) (send_method c)
           (send_button_x c) (send_button_y c) (max_send_count c)
           (daily_sent_count c) d.

(** ** Configuration and queue *)

(** The dict [load_config] returns when config.json does not exist. *)
Definition default_config : Config :=
  {| default_message := "This is a reminder message.";
     adb_path := "C:\platform-tools\adb.exe";
     send_delay_seconds := 5;
     retry_count := 3;
     scheduled_time := "09:00";
     dry_run := false;
     send_method := "tap";
     send_button_x := 980;
     send_button_y := 1850;
     max_send_count := 0;
     daily_sent_count := 0;
     daily_sent_date := EmptyString |}.

(** [load_config] on the file content.  The [setdefault] calls fill keys
    that a [Config] always has. *)
Definition read_config (f : option Config) : Config :=
  match f with
  | Some config => config
  | None => default_config
  end.

(** [queue.Queue]: [put] appends, [get] takes the oldest entry or finds the
    queue empty (after its timeout). *)
Definition queue_put (e : LogEntry) (q : list LogEntry) : list LogEntry :=
  q ++ [e].

Definition queue_get (q : list LogEntry) : option (LogEntry * list LogEntry) :=
  match q with
  | [] => None
  | e :: q' => Some (e, q')
  end.

(** ** Handlers that write shared state *)

Definition api_stop_send (w : World) : World :=
  with_send_status (with_is_running false (send_status w)) w.

Definition api_config_post (c : Config) (w : World) : World :=
  with_config_file (Some c) w.

Definition api_reset_daily_count (w : World) : World :=
  let config := read_config (config_file w) in
  with_config_file (Some (with_daily_sent_count 0 config)) w.

Definition serve (w : World) (r : Request) : World :=
  match r with
  | ReqStop => api_stop_send w
  | ReqConfigPost c => api_config_post c w
  | ReqResetDailyCount => api_reset_daily_count w
  | ReqContactsWrite cs => with_contacts_file cs w
  | ReqStreamGet =>
      match queue_get (log_queue w) with
      | Some (_, q) => with_log_queue q w
      | None => w
      end
  end.

(** ** The worker's monad *)

Definition M (A : Type) : Type := World → A * World.

Definition ret {A} (x : A) : M A := λ w, (x, w).

Definition bind {A B} (m : M A) (f : A → M B) : M B :=
  λ w, let (x, w') := m w in f x w'.

Declare Scope worker_scope.
Delimit Scope worker_scope with worker.
Notation "'do' x <- m ; k" := (bind m (λ x, k))
  (at level 10, x name, m at level 100, k at level 200) : worker_scope.
Notation "'do' ' p <- m ; k" := (bind m (λ x, match x with p => k end))
  (at level 10, p pattern, m at level 100, k at level 200) : worker_scope.
Notation "'run' m ; k" := (bind m (λ _, k))
  (at level 10, m at level 100, k at level 200) : worker_scope.
Open Scope worker_scope.

Definition exec {A} (m : M A) (w : World) : World := snd (m w).
Definition eval {A} (m : M A) (w : World) : A := fst (m w).

(** The other threads run: the requests of the next interval are served. *)
Definition yielded (w : World) : World :=
  match requests w with
  | [] => w
  | rs :: rest => foldl serve (with_requests rest w) rs
  end.

Definition yield : M () := λ w, ((), yielded w).

(** An entry of the trace that stands for no effect of its own: the call of
    [send_sms] is noted so that calls can be counted. *)
Definition note (ev : Event) : M () := λ w, ((), emit ev w).

Definition load_config : M Config :=
  run yield;
  λ w, let config := read_config (config_file w) in
       (config, emit (EvLoadConfig config) w).

Definition save_config (config : Config) : M () :=
  run yield;
  λ w, ((), emit (EvSaveConfig config) (with_config_file (Some config) w)).

Definition load_contacts : M (list Contact) :=
  run yield;
  λ w, (contacts_file w, w).

(** [datetime.now()]; a clock with no answer left shows the empty time. *)
Definition now : M datetime :=
  run yield;
  λ w, match clock w with
       | [] => (mkDatetime EmptyString EmptyString EmptyString, w)
       | t :: ts => (t, with_clock ts w)
       end.

Definition sleep (ms : nat) : M () :=
  run yield;
  λ w, ((), emit (EvSleep ms) w).

Definition get_is_running : M bool :=
  run yield;
  λ w, (is_running (send_status w), w).

Definition set_send_status (st : SendStatus) : M () :=
  run yield;
  λ w, ((), with_send_status st w).

Definition update_send_status (f : SendStatus → SendStatus) : M () :=
  run yield;
  λ w, ((), with_send_status (f (send_status w)) w).

Definition log_queue_put (e : LogEntry) : M () :=
  run yield;
  λ w, ((), emit (EvPut e) (with_log_queue (queue_put e (log_queue w)) w)).

(** [LOG_DIR.mkdir(exist_ok=True)] *)
Definition mkdir_log_dir : M () :=
  run yield;
  λ w, ((), emit EvMkdir
              (with_log_dir (Some (default ∅ (log_dir w))) w)).

(** ** The device driver *)

Definition dquote : string := String "034"%char EmptyString.
Definition backslash : string := String "\"%char EmptyString.

(** [s.replace(old, new)] for a one-character [old]. *)
Fixpoint replace (old : ascii) (new : string) (s : string) : string :=
  match s with
  | EmptyString => EmptyString
  | String c s' =>
      if decide (c = old) then new +:+ replace old new s'
      else String c (replace old new s')
  end.

(** An answer of the device; with none left the subprocess fails. *)
Definition subprocess_run (full_command : string) : M AdbResult :=
  run yield;
  λ w, match device w with
       | [] => let r := (false, EmptyString, EmptyString) in
               (r, emit (EvAdb full_command r) w)
       | r :: rs => (r, emit (EvAdb full_command r) (with_device rs w))
       end.

Definition run_adb_command (command : string) : M AdbResult :=
  do config <- load_config;
  let adb_path := adb_path config in
  let full_command := dquote +:+ adb_path +:+ dquote +:+ " " +:+ command in
  subprocess_run full_command.

Definition intent_cmd (phone message : string) : string :=
  let escaped_message :=
    replace "'"%char (backslash +:+ "'")
            (replace "034"%char (backslash +:+ dquote) message) in
  "shell am start -a android.intent.action.SENDTO -d " +:+ dquote +:+ "sms:"
    +:+ phone +:+ dquote +:+ " --es sms_body " +:+ dquote +:+ escaped_message
    +:+ dquote.

Definition tap_cmd (tap_x tap_y : Z) : string :=
  "shell input tap " +:+ pretty tap_x +:+ " " +:+ pretty tap_y.

Definition send_sms (phone message : string) (dry_run : bool)
    : M (bool * string) :=
  run note (EvSendSms phone message);
  if dry_run then
    run sleep 500;
    ret (true, "Dry run OK")
  else
    do config <- load_config;
    do '(success, stdout, stderr) <- run_adb_command (intent_cmd phone message);
    if negb success then
      ret (false, "Launch failed: " +:+ stderr)
    else
      run sleep 3000;
      let send_method := send_method config in
      let tap_x := send_button_x config in
      let tap_y := send_button_y config in
      run (if decide (send_method = "tap") then
             run run_adb_command (tap_cmd tap_x tap_y);
             run sleep 1000;
             run run_adb_command (tap_cmd tap_x tap_y);
             ret ()
           else if decide (send_method = "key") then
             run run_adb_command "shell input keyevent 66";
             run sleep 500;
             run run_adb_command "shell input keyevent 66";
             ret ()
           else if decide (send_method = "tab_enter") then
             run run_adb_command "shell input keyevent 61";
             run sleep 300;
             run run_adb_command "shell input keyevent 61";
             run sleep 300;
             run run_adb_command "shell input keyevent 66";
             ret ()
           else ret ());
      run sleep 2000;
      run run_adb_command "shell input keyevent 3";
      ret (true, "Sent").

(** ** The run *)

(** [json.dump(send_status, f)]: the dict as a document, keys in insertion
    order. *)
Definition entry_json (e : LogEntry) : json :=
  JObj [("index", JInt (Z.of_nat (index e)));
        ("phone", JStr (entry_phone e));
        ("name", JStr (entry_name e));
        ("timestamp", JStr (timestamp e));
        ("success", JBool (success e));
        ("result", JStr (result e))].

Definition optional_key {A} (k : string) (f : A → json) (v : option A)
    : list (string * json) :=
  match v with
  | Some x => [(k, f x)]
  | None => []
  end.

Definition status_json (st : SendStatus) : json :=
  JObj ([("is_running", JBool (is_running st));
         ("current", JInt (Z.of_nat (current st)));
         ("total", JInt (Z.of_nat (total st)));
         ("results", JArr (entry_json <$> results st));
         ("start_time", from_option JStr JNull (start_time st))]
        ++ optional_key "error" JStr (error st)
        ++ optional_key "max_count" JInt (max_count st)
        ++ optional_key "daily_sent_before" JInt (daily_sent_before st)).

Definition dump_send_status (log_file : string) : M () :=
  run yield;
  λ w, let doc := status_json (send_status w) in
       ((), emit (EvWriteLog log_file doc)
              (with_log_dir
                 (Some (<[log_file := doc]> (default ∅ (log_dir w)))) w)).

(** Lines 200-207: what the run reads before it decides anything. *)
Definition prelude : M (Config * list Contact * string) :=
  do config <- load_config;
  do all <- load_contacts;
  let contacts := filter (λ c : Contact, enabled c) all in
  do t <- now;
  ret (config, contacts, strftime_date t).

(** Lines 210-213: a new day resets the counter, on disk at once. *)
Definition reset_for (today : string) (config : Config) : Config :=
  with_daily_sent_date today (with_daily_sent_count 0 config).

Definition rollover (config : Config) (today : string) : M Config :=
  if decide (daily_sent_date config ≠ today) then
    let config := reset_for today config in
    run save_config config;
    ret config
  else ret config.

(** Lines 218-231: [None] is the early return, otherwise the contacts that
    the quota leaves. *)
Definition quota_gate (max_count daily_sent : Z) (contacts : list Contact)
    : option (list Contact) :=
  if decide (max_count > 0)%Z then
    let remaining := (max_count - daily_sent)%Z in
    if decide (remaining ≤ 0)%Z then None
    else Some (take (Z.to_nat remaining) contacts)
  else Some contacts.

Definition quota_error (max_count : Z) : string :=
  "Daily limit reached (" +:+ pretty max_count +:+ " SMS). Resets tomorrow.".

Definition quota_exceeded_status (max_count : Z) (t : datetime) : SendStatus :=
  {| is_running := false;
     current := 0;
     total := 0;
     results := [];
     start_time := Some (isoformat t);
     error := Some (quota_error max_count);
     max_count := None;
     daily_sent_before := None |}.

(** Line 253: [contact['message'] or default_message]. *)
Definition message_for (default_message : string) (contact : Contact) : string :=
  if decide (message contact = EmptyString) then default_message
  else message contact.

(** Lines 272-273: the delay between two sends. *)
Definition pace (delay len_contacts i : nat) : M () :=
  if decide (Z.of_nat i < Z.of_nat len_contacts - 1)%Z then
    do running <- get_is_running;
    if running then sleep (delay * 1000) else ret ()
  else ret ().

Section Loop.
  Variable dry_run : bool.
  Variable default_message : string.
  Variable delay : nat.
  Variable len_contacts : nat.

  (** Lines 248-273, [i] counting from where [enumerate] stands. *)
Fixpoint send_loop (i : nat) (contacts : list Contact) (sent_count : nat)
      : M nat :=
    match contacts with
    | [] => ret sent_count
    | contact :: rest =>
        do running <- get_is_running;
        if negb running then ret sent_count
        else
          run update_send_status (with_current (i + 1));
          let message := message_for default_message contact in
          do t <- now;
          do '(success, result) <- send_sms (phone contact) message dry_run;
          let log_entry :=
            mkLogEntry (i + 1) (phone contact) (name contact) (isoformat t)
                       success result in
          run update_send_status (λ st, with_results (results st ++ [log_entry]) st);
          run log_queue_put log_entry;
          let sent_count := if success then sent_count + 1 else sent_count in
          run pace delay len_contacts i;
          send_loop (i + 1) rest sent_count
    end.
End Loop.

(** Lines 277-282. *)
Definition committed (today : string) (sent_count : nat) (config : Config)
    : Config :=
  with_daily_sent_date today
    (with_daily_sent_count (daily_sent_count config + Z.of_nat sent_count)%Z
                           config).

Definition commit_quota (today : string) (sent_count : nat) : M () :=
  do config <- load_config;
  let config := committed today sent_count config in
  save_config config.

Definition log_file_name (t : datetime) : string :=
  "sms_log_" +:+ strftime_stamp t +:+ ".json".

(** Lines 233-241. *)
Definition running_status (config : Config) (contacts : list Contact)
    (t : datetime) : SendStatus :=
  {| is_running := true;
     current := 0;
     total := length contacts;
     results := [];
     start_time := Some (isoformat t);
     error := None;
     max_count := Some (max_send_count config);
     daily_sent_before := Some (daily_sent_count config) |}.

(** Lines 233-286. *)
Definition dispatch (dry_run : bool) (config : Config) (today : string)
    (contacts : list Contact) : M () :=
  do t <- now;
  run set_send_status (running_status config contacts t);
  run mkdir_log_dir;
  do t <- now;
  let log_file := log_file_name t in
  do sent_count <-
    send_loop dry_run (default_message config) (send_delay_seconds config)
              (length contacts) 0 contacts 0;
  run update_send_status (with_is_running false);
  run (if negb dry_run then commit_quota today sent_count else ret ());
  dump_send_status log_file.

Definition send_all_sms (dry_run : bool) : M () :=
  do '(config, contacts, today) <- prelude;
  do config <- rollover config today;
  let max_count := max_send_count config in
  let daily_sent := daily_sent_count config in
  match quota_gate max_count daily_sent contacts with
  | None =>
      do t <- now;
      set_send_status (quota_exceeded_status max_count t)
  | Some contacts => dispatch dry_run config today contacts
  end.

(** ** Handlers of the send API *)

(** [jsonify({"success": ..., "error": ...})] *)
Record Reply := mkReply {
  reply_success : bool;
  reply_error : option string
}.

(** What a call of [api_start_send] leaves behind: the reply, the thread it
    started ([Thread(target=send_all_sms, args=(dry_run,))], by its
    argument) and the world. *)
Record Started := mkStarted {
  reply : Reply;
  thread : option bool;
  after : World
}.

(** [request_dry_run] is the value under "dry_run" of the request body, if
    the key is there. *)
Definition api_start_send (request_dry_run : option bool) (w : World) : Started :=
  if is_running (send_status w) then
    mkStarted (mkReply false (Some "送信中です")) None w
  else
    let dry_run := default false request_dry_run in
    mkStarted (mkReply true None) (Some dry_run) w.

Definition api_send_status (w : World) : json :=
  status_json (send_status w).

(** The body and the HTTP status, for a [filename] that names a file of
    the log directory or nothing in it.  (At "." and "..", which name
    directories, [open] raises instead.) *)
Definition api_get_log_detail (filename : string) (w : World) : json * nat :=
  match log_dir w ≫= (.!! filename) with
  | Some doc => (doc, 200)
  | None => (JObj [("error", JStr "Log not found")], 404)
  end.

(** [d.get(k)] on a document; [None] is Python's [None] or an exception when
    [d] is no dict, which the callers below tell apart first. *)
Definition dict_get (k : string) (fields : list (string * json)) : option json :=
  snd <$> (snd <$> list_find (λ kv, kv.1 = k) fields).

(** Python's truth value of a document. *)
Definition truthy (v : json) : bool :=
  match v with
  | JNull => false
  | JBool b => b
  | JInt z => bool_decide (z ≠ 0%Z)
  | JStr s => bool_decide (s ≠ EmptyString)
  | JArr items => bool_decide (items ≠ [])
  | JObj fields => bool_decide (fields ≠ [])
  end.

(** [r.get("success")] for each [r] of [data.get("results", [])]; [None]
    when the iteration raises. *)
Definition success_flags (data : list (string * json)) : option (list bool) :=
  match default (JArr []) (dict_get "results" data) with
  | JArr items =>
      mapM (λ r, match r with
                 | JObj fields => Some (from_option truthy false (dict_get "success" fields))
                 | _ => None
                 end) items
  | JObj [] => Some []
  | JStr EmptyString => Some []
  | _ => None
  end.

(** One element of the list [api_get_logs] returns. *)
Record LogSummary := mkLogSummary {
  summary_filename : string;
  summary_start_time : json;
  summary_total : json;
  summary_success : nat;
  summary_failed : nat
}.

(** The body of the loop of [api_get_logs] for one file; [None] when it
    raises and the file is skipped. *)
Definition log_summary (filename : string) (data : json) : option LogSummary :=
  match data with
  | JObj fields =>
      flags ← success_flags fields;
      Some (mkLogSummary filename
              (default JNull (dict_get "start_time" fields))
              (default (JInt 0) (dict_get "total" fields))
              (length (filter (λ b : bool, b) flags))
              (length (filter (λ b : bool, ¬ b) flags)))
  | _ => None
  end.

(** ** The event stream *)

(** What [generate] yields: an entry or the ping. *)
Inductive Frame :=
  | FrameData (e : LogEntry)
  | FramePing.

(** One turn of the loop of [generate]: [log_queue.get(timeout=1)] hands out
    the oldest entry, and the ping when the queue stayed empty. *)
Definition generate_next (q : list LogEntry) : Frame * list LogEntry :=
  match queue_get q with
  | Some (entry, q') => (FrameData entry, q')
  | None => (FramePing, q)
  end.

(** The queue between the worker and the clients that hold a stream open,
    each client numbered; [delivered] lists the frames in the order the
    generators yielded them. *)
Record Stream := mkStream {
  pending : list LogEntry;
  delivered : list (nat * Frame)
}.

Inductive StreamStep :=
  | Emit (e : LogEntry)       (* the worker: log_queue.put(log_entry) *)
  | Next (client : nat).      (* a client's generator runs one turn *)

Definition stream_step (st : Stream) (s : StreamStep) : Stream :=
  match s with
  | Emit e => mkStream (queue_put e (pending st)) (delivered st)
  | Next client =>
      let (frame, q) := generate_next (pending st) in
      mkStream q (delivered st ++ [(client, frame)])
  end.

Definition stream_run (steps : list StreamStep) (st : Stream) : Stream :=
  foldl stream_step st steps.

Definition received (client : nat) (st : Stream) : list Frame :=
  snd <$> filter (λ d, d.1 = client) (delivered st).

Definition emitted (steps : list StreamStep) : list LogEntry :=
  omap (λ s, match s with Emit e => Some e | Next _ => None end) steps.

Definition entries_of (frames : list Frame) : list LogEntry :=
  omap (λ f, match f with FrameData e => Some e | FramePing => None end) frames.

(** ** Notions the statements use *)

(** The run record: [send_status] but for the flag that stop clears. *)
Definition record (w : World) : SendStatus :=
  with_is_running false (send_status w).

(** The config writes and the calls of [send_sms] that the trace holds. *)
Definition saved (w : World) : list Config :=
  omap (λ ev, match ev with EvSaveConfig c => Some c | _ => None end) (trace w).

Definition sent_to (w : World) : list (string * string) :=
  omap (λ ev, match ev with EvSendSms p m => Some (p, m) | _ => None end)
       (trace w).

Definition writes_config (r : Request) : bool :=
  match r with
  | ReqConfigPost _ | ReqResetDailyCount => true
  | _ => false
  end.

Definition is_stop (r : Request) : bool :=
  match r with
  | ReqStop => true
  | _ => false
  end.

(** No request to come writes config.json. *)
Definition quiet (rq : list (list Request)) : Prop :=
  Forall (Forall (λ r, writes_config r = false)) rq.

(** No request to come is a stop. *)
Definition unstopped (rq : list (list Request)) : Prop :=
  Forall (Forall (λ r, is_stop r = false)) rq.

(** [m] respects [R]: every run of [m] takes a world to an [R]-related one. *)
Definition respects {A} (R : relation World) (m : M A) : Prop :=
  ∀ w, R w (exec m w).

(** [f] reads the same in both worlds. *)
Definition kept {B} (f : World → B) : relation World := λ w w', f w' = f w.

Abbreviation keeps f := (respects (kept f)).

Definition trace_grows : relation World :=
  λ w w', trace w `prefix_of` trace w'.

Definition stays_stopped : relation World :=
  λ w w', is_running (send_status w) = false →
          is_running (send_status w') = false.

(** Requests are consumed, and [f] reads the same if those to come all
    satisfy [P]. *)
Definition guarded {B} (P : Request → Prop) (f : World → B) : relation World :=
  λ w w', requests w' `suffix_of` requests w
          ∧ (Forall (Forall P) (requests w) → f w' = f w).

Abbreviation config_guarded :=
  (guarded (λ r, writes_config r = false) config_file).

Abbreviation running_guarded :=
  (guarded (λ r, is_stop r = false) (λ w, is_running (send_status w))).

(** The events of [send_sms] below its own note, of [pace] and of the
    queue. *)
Definition io_event (ev : Event) : Prop :=
  match ev with
  | EvLoadConfig _ | EvAdb _ _ | EvSleep _ | EvPut _ => True
  | _ => False
  end.

(** The record after the loop has appended [new], counting from [i]. *)
Definition progress (i : nat) (new : list LogEntry) (st : SendStatus) : SendStatus :=
  match new with
  | [] => st
  | _ => with_current (i + length new) (with_results (results st ++ new) st)
  end.

Definition same_contact (c : Contact) (e : LogEntry) : Prop :=
  entry_phone e = phone c ∧ entry_name e = name c.

Definition successes (l : list LogEntry) : nat :=
  length (filter (λ e, success e) l).

Definition failures (l : list LogEntry) : nat :=
  length (filter (λ e, ¬ success e) l).

Ltac unfold_prim :=
  unfold exec, eval, note, load_config, save_config, load_contacts, now,
    sleep, get_is_running, set_send_status, update_send_status,
    log_queue_put, mkdir_log_dir, subprocess_run, dump_send_status, bind,
    yield, ret.

(** ** Worlds and notions of the statements *)

(** What a dispatch leaves: the record, the log file, the trace. *)
Record Dispatched (dry_run : bool) (config : Config) (today : string)
    (contacts : list Contact) (w w' : World)
    (d_started : datetime) (d_log_file : string) (d_new : list LogEntry)
    (d_pre : list Event) (d_disk : Config) : Prop := mkDispatched {
  d_status :
    send_status w'
    = with_is_running false
        (progress 0 d_new (running_status config contacts d_started));
  d_length : length d_new ≤ length contacts;
  d_index : index <$> d_new = seq 1 (length d_new);
  d_same : Forall2 same_contact (take (length d_new) contacts) d_new;
  d_all : unstopped (requests w) → length d_new = length contacts;
  d_sent_to :
    sent_to w'
    = sent_to w
      ++ ((λ c, (phone c, message_for (default_message config) c))
            <$> take (length d_new) contacts);
  d_log_dir :
    log_dir w'
    = Some (<[d_log_file := status_json (send_status w')]>
              (default ∅ (log_dir w)));
  d_trace :
    trace w'
    = trace w ++ d_pre
      ++ (if dry_run then []
          else [EvLoadConfig d_disk;
                EvSaveConfig (committed today (successes d_new) d_disk)])
      ++ [EvWriteLog d_log_file (status_json (send_status w'))];
  d_saved :
    saved w'
    = saved w
      ++ (if dry_run then []
          else [committed today (successes d_new) d_disk]);
  d_requests : requests w' `suffix_of` requests w;
  d_config :
    quiet (requests w) →
    d_disk = read_config (config_file w)
    ∧ config_file w'
      = if dry_run then config_file w
        else Some (committed today (successes d_new) d_disk)
}.

(** The counter the quota check reads: lines 210-215. *)
Definition effective_count (today : string) (config : Config) : Z :=
  if decide (daily_sent_date config ≠ today) then 0%Z
  else daily_sent_count config.

(** The device's answer to the next command. *)
Definition launch_answer (w : World) : AdbResult :=
  hd (false, EmptyString, EmptyString) (device w).

Definition idle_status : SendStatus :=
  {| is_running := false; current := 0; total := 0; results := [];
     start_time := None; error := None; max_count := None;
     daily_sent_before := None |}.

Definition empty_world : World :=
  {| config_file := None; contacts_file := []; log_dir := None;
     send_status := idle_status; log_queue := []; clock := []; device := [];
     requests := []; trace := [] |}.

Definition busy_world : World :=
  with_send_status
    {| is_running := true; current := 1; total := 3; results := [];
       start_time := Some "2024-05-01T09:00:00"; error := None;
       max_count := Some 0%Z; daily_sent_before := Some 0%Z |}
    empty_world.

Definition exhausted_config : Config :=
  {| default_message := "Reminder"; adb_path := "adb";
     send_delay_seconds := 0; retry_count := 3; scheduled_time := "09:00";
     dry_run := false; send_method := "tap"; send_button_x := 980;
     send_button_y := 1850; max_send_count := 2; daily_sent_count := 2;
     daily_sent_date := "2024-05-01" |}.

Definition morning : datetime :=
  {| strftime_date := "2024-05-01"; isoformat := "2024-05-01T09:00:00";
     strftime_stamp := "20240501_090000" |}.

Definition alice : Contact := mkContact 0 "0901111" "Alice" EmptyString true.
Definition bob : Contact := mkContact 1 "0902222" "Bob" "Hello Bob" true.
Definition carol : Contact := mkContact 2 "0903333" "Carol" EmptyString true.

Definition exhausted_world : World :=
  {| config_file := Some exhausted_config;
     contacts_file := [alice; bob; carol];
     log_dir := None;
     send_status := idle_status;
     log_queue := [];
     clock := [morning; morning; morning; morning];
     device := [];
     requests := [];
     trace := [] |}.

Definition open_config : Config :=
  {| default_message := "Reminder"; adb_path := "adb";
     send_delay_seconds := 0; retry_count := 3; scheduled_time := "09:00";
     dry_run := false; send_method := "tap"; send_button_x := 980;
     send_button_y := 1850; max_send_count := 2; daily_sent_count := 0;
     daily_sent_date := "2024-05-01" |}.

Definition adb_ok : AdbResult := (true, EmptyString, EmptyString).
Definition adb_failed : AdbResult := (false, EmptyString, "error: no devices").

(** Three enabled contacts, a quota of two, a stop while the second send is
    under way. *)
Definition stopped_world : World :=
  {| config_file := Some open_config;
     contacts_file := [alice; bob; carol];
     log_dir := None;
     send_status := idle_status;
     log_queue := [];
     clock := replicate 8 morning;
     device := replicate 8 adb_ok;
     requests := replicate 12 [] ++ [[ReqStop]];
     trace := [] |}.

(** Yesterday's count had reached the quota. *)
Definition next_day_world : World :=
  {| config_file := Some exhausted_config;
     contacts_file := [alice; bob; carol];
     log_dir := None;
     send_status := idle_status;
     log_queue := [];
     clock :=
       replicate 8
         {| strftime_date := "2024-05-02"; isoformat := "2024-05-02T09:00:00";
            strftime_stamp := "20240502_090000" |};
     device := replicate 8 adb_ok;
     requests := [];
     trace := [] |}.

Definition first_entry : LogEntry :=
  {| index := 1; entry_phone := "0901111"; entry_name := "Alice";
     timestamp := "2024-05-01T09:00:00"; success := true; result := "Sent" |}.

(** A reset of the counter arrives while the first send is under way, and
    the day changes during the run. *)
Definition midrun_reset_world : World :=
  {| config_file :=
       Some (with_daily_sent_count 1 (with_daily_sent_date "2024-05-01"
               (with_daily_sent_count 0 default_config)));
     contacts_file := [alice; bob];
     log_dir := None;
     send_status := idle_status;
     log_queue := [];
     clock :=
       morning
       :: replicate 8
            {| strftime_date := "2024-05-02";
               isoformat := "2024-05-02T00:00:05";
               strftime_stamp := "20240502_000005" |};
     device := replicate 16 adb_ok;
     requests := replicate 8 [] ++ [[ReqResetDailyCount]];
     trace := [] |}.

(** The launch for Alice fails, the one for Bob succeeds. *)
Definition flaky_world : World :=
  {| config_file := Some open_config;
     contacts_file := [alice; bob; carol];
     log_dir := None;
     send_status := idle_status;
     log_queue := [];
     clock := replicate 8 morning;
     device := adb_failed :: replicate 8 adb_ok;
     requests := [];
     trace := [] |}.

(** The persisted counter and cap, as the next [load_config] reads them. *)
Definition persisted_count (w : World) : Z :=
  daily_sent_count (read_config (config_file w)).

Definition persisted_quota (w : World) : Z :=
  max_send_count (read_config (config_file w)).

(** The runs one after the other, each with its dry-run flag, the world
    before and the world after: every worker has returned when the next
    one starts.  (The code also lets two workers overlap, see
    [send_all_sms_with].) *)
Fixpoint run_all (flags : list bool) (w : World) : list (bool * World * World) :=
  match flags with
  | [] => []
  | dry_run :: rest =>
      let w' := exec (send_all_sms dry_run) w in
      (dry_run, w, w') :: run_all rest w'
  end.

(** What one run leaves of the quota [Q]: the cap is untouched, the
    counter on disk and every config the run wrote are within [Q]; a run
    that was not refused cut its list to what the counter left and, if it
    was no dry run, added its successes to the counter. *)
Definition within_quota (Q : Z) (one : bool * World * World) : Prop :=
  let '(dry_run, w, w') := one in
  let st := send_status w' in
  persisted_quota w' = Q
  ∧ (persisted_count w' ≤ Q)%Z
  ∧ Forall (λ c, (daily_sent_count c ≤ Q)%Z) (drop (length (saved w)) (saved w'))
  ∧ (error st = None →
     ∃ before,
       daily_sent_before st = Some before
       ∧ (Z.of_nat (total st) ≤ Q - before)%Z
       ∧ length (results st) ≤ total st
       ∧ (dry_run = false →
          persisted_count w' = (before + Z.of_nat (successes (results st)))%Z)).

Definition flaky_free_world : World :=
  {| config_file := Some open_config;
     contacts_file := [alice; bob; carol];
     log_dir := None;
     send_status := idle_status;
     log_queue := [];
     clock := replicate 24 morning;
     device := replicate 24 adb_ok;
     requests := [];
     trace := [] |}.

(** ** A start while a worker is alive

    [api_start_send] tests only [is_running] (line 505), and [api_stop_send]
    clears that flag (line 522) while the worker may still be inside
    [send_sms]: a start served then puts a second worker beside the first,
    and line 233 of the second rebinds the record the first appends to.

    [send_loop_with] is [send_loop] with one more point where other threads
    run: between the return of [send_sms] (line 262) and the append (line
    266) of turn [i] they run [hook i]. *)
Section Hooked.
  Variable hook : nat → M ().
  Variable dry_run : bool.
  Variable default_message : string.
  Variable delay : nat.
  Variable len_contacts : nat.

Fixpoint send_loop_with (i : nat) (contacts : list Contact) (sent_count : nat)
      : M nat :=
    match contacts with
    | [] => ret sent_count
    | contact :: rest =>
        do running <- get_is_running;
        if negb running then ret sent_count
        else
          run update_send_status (with_current (i + 1));
          let message := message_for default_message contact in
          do t <- now;
          do '(success, result) <- send_sms (phone contact) message dry_run;
          run hook i;
          let log_entry :=
            mkLogEntry (i + 1) (phone contact) (name contact) (isoformat t)
                       success result in
          run update_send_status (λ st, with_results (results st ++ [log_entry]) st);
          run log_queue_put log_entry;
          let sent_count := if success then sent_count + 1 else sent_count in
          run pace delay len_contacts i;
          send_loop_with (i + 1) rest sent_count
    end.
End Hooked.

Definition dispatch_with (hook : nat → M ()) (dry_run : bool) (config : Config)
    (today : string) (contacts : list Contact) : M () :=
  do t <- now;
  run set_send_status (running_status config contacts t);
  run mkdir_log_dir;
  do t <- now;
  let log_file := log_file_name t in
  do sent_count <-
    send_loop_with hook dry_run (default_message config)
                   (send_delay_seconds config) (length contacts) 0 contacts 0;
  run update_send_status (with_is_running false);
  run (if negb dry_run then commit_quota today sent_count else ret ());
  dump_send_status log_file.

Definition send_all_sms_with (hook : nat → M ()) (dry_run : bool) : M () :=
  do '(config, contacts, today) <- prelude;
  do config <- rollover config today;
  let max_count := max_send_count config in
  let daily_sent := daily_sent_count config in
  match quota_gate max_count daily_sent contacts with
  | None =>
      do t <- now;
      set_send_status (quota_exceeded_status max_count t)
  | Some contacts => dispatch_with hook dry_run config today contacts
  end.

(** Nothing happens at the points. *)
Definition no_hook (i : nat) : M () := ret ().

(** What the other threads do when the operator presses stop and then
    start: [api_stop_send], then [api_start_send], whose thread, if it
    starts one, runs [send_all_sms] to its end. *)
Definition stop_then_start (request_dry_run : option bool) : M () :=
  λ w,
    let started := api_start_send request_dry_run (api_stop_send w) in
    match thread started with
    | Some dry_run => ((), exec (send_all_sms dry_run) (after started))
    | None => ((), after started)
    end.

(** Stop and start at the point of turn [at_turn]. *)
Definition restart_during (at_turn : nat) (request_dry_run : option bool)
    (i : nat) : M () :=
  if decide (i = at_turn) then stop_then_start request_dry_run else ret ().

(** [next_day_world] with a POST of the settings form, still holding
    yesterday's counter, served after the run has written its reset of
    the counter and before its first send. *)
Definition posted_world : World :=
  with_requests (replicate 6 [] ++ [[ReqConfigPost exhausted_config]])
                next_day_world.

(** ** Handlers of the counter and of the log files *)










(** The command line [run_adb_command] runs. *)
Definition full_command (config : Config) (command : string) : string :=
  dquote +:+ adb_path config +:+ dquote +:+ " " +:+ command.




(** * Proofs *)

(** ** The monad *)

Lemma bind_unfold {A B} (m : M A) (k : A → M B) w :
  bind m k w = k (eval m w) (exec m w).
Proof. unfold eval, exec, bind. by destruct (m w). Qed.

Lemma eval_bind {A B} (m : M A) (k : A → M B) w :
  eval (bind m k) w = eval (k (eval m w)) (exec m w).
Proof. unfold eval at 1. by rewrite bind_unfold. Qed.

Lemma exec_bind {A B} (m : M A) (k : A → M B) w :
  exec (bind m k) w = exec (k (eval m w)) (exec m w).
Proof. unfold exec at 1. by rewrite bind_unfold. Qed.

Lemma exec_ret {A} (x : A) w : exec (ret x) w = w.
Proof. done. Qed.

Lemma eval_ret {A} (x : A) w : eval (ret x) w = x.
Proof. done. Qed.

Lemma eval_bind_const {A B} (m : M A) (k : A → M B) (v : B) w :
  (∀ x w', eval (k x) w' = v) → eval (bind m k) w = v.
Proof. intros Hk. by rewrite eval_bind. Qed.

Lemma respects_ret {A} (R : relation World) `{!Reflexive R} (x : A) :
  respects R (ret x).
Proof. intros w. apply reflexivity. Qed.

Lemma respects_bind {A B} (R : relation World) `{!Transitive R}
    (m : M A) (k : A → M B) :
  respects R m → (∀ x, respects R (k x)) → respects R (bind m k).
Proof.
  intros Hm Hk w. rewrite exec_bind. etrans; [apply Hm | apply Hk].
Qed.

Create HintDb respects.

Ltac respects_go leaf :=
  repeat first
    [ apply respects_ret; tc_solve
    | apply respects_bind; [tc_solve | | intros ?]
    | lazymatch goal with
      | |- respects _ (match ?x with _ => _ end) => destruct x
      | |- respects _ (let _ := _ in _) => simpl
      end
    | progress eauto with respects
    | leaf ].

Lemma Forall_suffix {A} (P : A → Prop) (l k : list A) :
  l `suffix_of` k → Forall P k → Forall P l.
Proof. intros [k' ->] H. by apply Forall_app in H as [_ ?]. Qed.

#[local] Instance kept_preorder {B} (f : World → B) : PreOrder (kept f).
Proof. split; [by intros w | intros w1 w2 w3; unfold kept; congruence]. Qed.

#[local] Instance trace_grows_preorder : PreOrder trace_grows.
Proof.
  unfold trace_grows. split; [by intros w | intros w1 w2 w3 ??; by etrans].
Qed.

#[local] Instance stays_stopped_preorder : PreOrder stays_stopped.
Proof. unfold stays_stopped. split; [by intros w | intros w1 w2 w3; auto]. Qed.

#[local] Instance guarded_preorder {B} P (f : World → B) : PreOrder (guarded P f).
Proof.
  split; [by intros w|]. intros w1 w2 w3 [Hs1 Hf1] [Hs2 Hf2]. split.
  - by etrans.
  - intros H. rewrite Hf2, Hf1; eauto using Forall_suffix.
Qed.

(** ** What requests cannot do *)

Ltac serve_cases :=
  intros ? []; simpl; try done; by destruct (queue_get _) as [[]|].

Lemma foldl_serve_keeps {A} (f : World → A) (P : Request → Prop) :
  (∀ w r, P r → f (serve w r) = f w) →
  ∀ rs w, Forall P rs → f (foldl serve w rs) = f w.
Proof.
  intros Hf rs. induction rs as [|r rs IH]; intros w Hrs; simpl; [done|].
  inversion_clear Hrs. by rewrite IH, Hf.
Qed.

Lemma yielded_keeps {A} (f : World → A) (P : Request → Prop) :
  (∀ w r, P r → f (serve w r) = f w) →
  (∀ w rq, f (with_requests rq w) = f w) →
  ∀ w, Forall (Forall P) (requests w) → f (yielded w) = f w.
Proof.
  intros Hf Hq w Hw. unfold yielded. destruct (requests w) as [|rs rq]; [done|].
  inversion_clear Hw. by rewrite (foldl_serve_keeps f P), Hq.
Qed.

Lemma yielded_keeps_all {A} (f : World → A) :
  (∀ w r, f (serve w r) = f w) →
  (∀ w rq, f (with_requests rq w) = f w) →
  ∀ w, f (yielded w) = f w.
Proof.
  intros Hf Hq w. apply (yielded_keeps f (λ _, True)); [auto | done |].
  apply Forall_forall; intros; by apply Forall_forall.
Qed.

Lemma status_yielded w :
  with_is_running false (send_status (yielded w))
  = with_is_running false (send_status w).
Proof. apply (yielded_keeps_all record); [serve_cases | done]. Qed.

Lemma record_yielded w : record (yielded w) = record w.
Proof. apply status_yielded. Qed.

Lemma log_dir_yielded w : log_dir (yielded w) = log_dir w.
Proof. apply yielded_keeps_all; [serve_cases | done]. Qed.

Lemma clock_yielded w : clock (yielded w) = clock w.
Proof. apply yielded_keeps_all; [serve_cases | done]. Qed.

Lemma device_yielded w : device (yielded w) = device w.
Proof. apply yielded_keeps_all; [serve_cases | done]. Qed.

Lemma trace_yielded w : trace (yielded w) = trace w.
Proof. apply yielded_keeps_all; [serve_cases | done]. Qed.

Lemma saved_yielded w : saved (yielded w) = saved w.
Proof. unfold saved. by rewrite trace_yielded. Qed.

Lemma sent_to_yielded w : sent_to (yielded w) = sent_to w.
Proof. unfold sent_to. by rewrite trace_yielded. Qed.

Lemma config_file_yielded w :
  quiet (requests w) → config_file (yielded w) = config_file w.
Proof. apply yielded_keeps; [serve_cases | done]. Qed.

Lemma is_running_yielded w :
  unstopped (requests w) →
  is_running (send_status (yielded w)) = is_running (send_status w).
Proof.
  apply (yielded_keeps (λ w, is_running (send_status w))); [serve_cases | done].
Qed.

Lemma requests_yielded w : requests (yielded w) = tail (requests w).
Proof.
  unfold yielded. destruct (requests w) as [|rs rq] eqn:E; [done|].
  rewrite (foldl_serve_keeps requests (λ _, True));
    [done | | by apply Forall_forall].
  intros ? [] _; simpl; try done. by destruct (queue_get _) as [[]|].
Qed.

Lemma requests_yielded_suffix w : requests (yielded w) `suffix_of` requests w.
Proof.
  rewrite requests_yielded. destruct (requests w); [done|].
  by apply suffix_cons_r.
Qed.

Lemma stopped_yielded w : stays_stopped w (yielded w).
Proof.
  unfold stays_stopped, yielded. destruct (requests w) as [|rs rq]; [done|].
  change (is_running (send_status w))
    with (is_running (send_status (with_requests rq w))).
  generalize (with_requests rq w). clear w.
  induction rs as [|r rs IH]; intros w Hw; simpl; [done|].
  apply IH. destruct r; simpl; try done.
  by destruct (queue_get _) as [[]|].
Qed.

Lemma config_guarded_yielded w : config_guarded w (yielded w).
Proof.
  split; [apply requests_yielded_suffix | apply config_file_yielded].
Qed.

Lemma running_guarded_yielded w : running_guarded w (yielded w).
Proof.
  split; [apply requests_yielded_suffix | apply is_running_yielded].
Qed.

Lemma saved_emit ev w :
  saved (emit ev w)
  = saved w ++ match ev with EvSaveConfig c => [c] | _ => [] end.
Proof. unfold saved. simpl. rewrite omap_app. by destruct ev. Qed.

Lemma sent_to_emit ev w :
  sent_to (emit ev w)
  = sent_to w ++ match ev with EvSendSms p m => [(p, m)] | _ => [] end.
Proof. unfold sent_to. simpl. rewrite omap_app. by destruct ev. Qed.

(** ** Steps of the worker, for any relation *)

Section Steps.
  Context (R : relation World) {HR : PreOrder R}.
  Hypothesis R_yield : ∀ w, R w (yielded w).
  Hypothesis R_emit : ∀ w ev, io_event ev → R w (emit ev w).
  Hypothesis R_clock : ∀ w ts, R w (with_clock ts w).
  Hypothesis R_device : ∀ w rs, R w (with_device rs w).

Ltac leaf :=
    intros ?w; unfold_prim; simpl; repeat case_match; simpl;
    repeat first [ apply R_yield | reflexivity
                 | (etrans; [|by apply R_emit]) | (etrans; [|apply R_clock])
                 | (etrans; [|apply R_device]) ].

Lemma now_respects : respects R now.
  Proof using HR R_yield R_clock. leaf. Qed.

Lemma sleep_respects ms : respects R (sleep ms).
  Proof using HR R_yield R_emit. leaf. Qed.

Lemma load_config_respects : respects R load_config.
  Proof using HR R_yield R_emit. leaf. Qed.

Lemma load_contacts_respects : respects R load_contacts.
  Proof using HR R_yield. leaf. Qed.

Lemma get_is_running_respects : respects R get_is_running.
  Proof using HR R_yield. leaf. Qed.

Lemma run_adb_command_respects command : respects R (run_adb_command command).
  Proof using HR R_yield R_emit R_device. unfold run_adb_command. respects_go leaf. Qed.

Lemma pace_respects delay len_contacts i :
    respects R (pace delay len_contacts i).
  Proof using HR R_yield R_emit. unfold pace. respects_go leaf. Qed.

  Hypothesis R_note : ∀ w p m, R w (emit (EvSendSms p m) w).

Lemma send_sms_respects phone message dry_run :
    respects R (send_sms phone message dry_run).
  Proof using HR R_yield R_emit R_device R_note.
    unfold send_sms. pose proof run_adb_command_respects.
    apply respects_bind; [tc_solve | intros w; apply R_note | intros _].
    respects_go leaf.
  Qed.

  Hypothesis R_queue : ∀ w q, R w (with_log_queue q w).
  Hypothesis R_progress :
    ∀ w st, is_running st = is_running (send_status w) →
            R w (with_send_status st w).

Lemma log_queue_put_respects e : respects R (log_queue_put e).
  Proof using HR R_yield R_emit R_queue.
    intros w. unfold_prim. simpl. etrans; [apply R_yield|].
    etrans; [apply R_queue|]. by apply R_emit.
  Qed.

Lemma update_send_status_respects f :
    (∀ st, is_running (f st) = is_running st) →
    respects R (update_send_status f).
  Proof using HR R_yield R_progress.
    intros Hf w. unfold_prim. simpl. etrans; [apply R_yield|].
    by apply R_progress.
  Qed.

Lemma send_loop_respects dry_run default_message delay len_contacts contacts :
    ∀ i sent_count,
      respects R
        (send_loop dry_run default_message delay len_contacts i contacts sent_count).
  Proof using All.
    pose proof send_sms_respects. pose proof pace_respects.
    pose proof get_is_running_respects. pose proof now_respects.
    pose proof log_queue_put_respects.
    induction contacts as [|contact rest IH]; intros i sent_count; simpl.
    - apply respects_ret; tc_solve.
    - apply respects_bind; [tc_solve | by auto | intros []; simpl].
      2: apply respects_ret; tc_solve.
      apply respects_bind;
        [tc_solve | by apply update_send_status_respects | intros _].
      apply respects_bind; [tc_solve | by auto | intros t].
      apply respects_bind; [tc_solve | by auto | intros [ok res]].
      apply respects_bind;
        [tc_solve | by apply update_send_status_respects | intros _].
      apply respects_bind; [tc_solve | by auto | intros _].
      apply respects_bind; [tc_solve | by auto | intros _].
      apply IH.
  Qed.
End Steps.

(** ** The relations at work *)

Ltac side :=
  first
    [ apply record_yielded | apply saved_yielded | apply log_dir_yielded
    | apply config_guarded_yielded | apply running_guarded_yielded
    | apply stopped_yielded | apply sent_to_yielded | apply device_yielded
    | apply clock_yielded | apply trace_yielded
    | intros; unfold kept, trace_grows, stays_stopped, guarded, record;
      simpl; rewrite ?saved_emit, ?sent_to_emit, ?trace_yielded;
      repeat case_match; rewrite ?app_nil_r;
      by eauto using prefix_app_r ].

Ltac kept_leaf :=
  intros ?w; unfold kept, sent_to; unfold_prim; simpl; repeat case_match;
  simpl; rewrite ?omap_app, ?trace_yielded; simpl; rewrite ?app_nil_r; done.

Lemma send_sms_record phone message dry_run :
  keeps record (send_sms phone message dry_run).
Proof. apply send_sms_respects; try tc_solve; side. Qed.

Lemma pace_record delay len_contacts i :
  keeps record (pace delay len_contacts i).
Proof. apply pace_respects; try tc_solve; side. Qed.

Lemma pace_sent_to delay len_contacts i :
  keeps sent_to (pace delay len_contacts i).
Proof. apply pace_respects; try tc_solve; side. Qed.

Lemma run_adb_command_sent_to command : keeps sent_to (run_adb_command command).
Proof. apply run_adb_command_respects; try tc_solve; side. Qed.

Lemma send_loop_saved dry_run default_message delay len_contacts contacts i n :
  keeps saved (send_loop dry_run default_message delay len_contacts i contacts n).
Proof. apply send_loop_respects; try tc_solve; side. Qed.

Lemma send_loop_log_dir dry_run default_message delay len_contacts contacts i n :
  keeps log_dir (send_loop dry_run default_message delay len_contacts i contacts n).
Proof. apply send_loop_respects; try tc_solve; side. Qed.

Lemma send_loop_config dry_run default_message delay len_contacts contacts i n :
  respects config_guarded
    (send_loop dry_run default_message delay len_contacts i contacts n).
Proof. apply send_loop_respects; try tc_solve; side. Qed.

Lemma send_loop_running dry_run default_message delay len_contacts contacts i n :
  respects running_guarded
    (send_loop dry_run default_message delay len_contacts i contacts n).
Proof. apply send_loop_respects; try tc_solve; side. Qed.

Lemma send_loop_trace dry_run default_message delay len_contacts contacts i n :
  respects trace_grows
    (send_loop dry_run default_message delay len_contacts i contacts n).
Proof. apply send_loop_respects; try tc_solve; side. Qed.

Lemma update_send_status_record f w :
  (∀ st, with_is_running false (f st) = f (with_is_running false st)) →
  record (exec (update_send_status f) w) = f (record w).
Proof.
  intros Hf. unfold_prim. simpl. unfold record at 1. simpl.
  by rewrite Hf, status_yielded.
Qed.

Lemma send_sms_sent_to phone message dry_run w :
  sent_to (exec (send_sms phone message dry_run) w)
  = sent_to w ++ [(phone, message)].
Proof.
  unfold send_sms. rewrite exec_bind.
  change (exec (note (EvSendSms phone message)) w)
    with (emit (EvSendSms phone message) w).
  lazymatch goal with
  | |- sent_to (exec ?m _) = _ => assert (keeps sent_to m) as ->
  end; [| by rewrite sent_to_emit].
  pose proof run_adb_command_sent_to.
  respects_go ltac:(first [ done | kept_leaf ]).
Qed.

Lemma progress_cons i e new st :
  progress (i + 1) new (with_results (results st ++ [e]) (with_current (i + 1) st))
  = progress i (e :: new) st.
Proof.
  destruct st, new as [|e' new]; simpl; unfold with_current, with_results; simpl.
  - done.
  - rewrite <-(assoc_L (++)). simpl. f_equal. lia.
Qed.

(** ** The dispatch loop *)

Section LoopSpec.
  Variable dry_run : bool.
  Variable default_message : string.
  Variable delay : nat.
  Variable len_contacts : nat.

Lemma send_loop_spec contacts : ∀ i sent_count w,
    ∃ new : list LogEntry,
      let loop :=
        send_loop dry_run default_message delay len_contacts i contacts
                  sent_count in
      record (exec loop w) = progress i new (record w)
      ∧ length new ≤ length contacts
      ∧ index <$> new = seq (i + 1) (length new)
      ∧ Forall2 same_contact (take (length new) contacts) new
      ∧ eval loop w = sent_count + successes new
      ∧ sent_to (exec loop w)
        = sent_to w
          ++ ((λ c, (phone c, message_for default_message c))
                <$> take (length new) contacts)
      ∧ (unstopped (requests w) → is_running (send_status w) = true →
         length new = length contacts).
  Proof.
    induction contacts as [|contact rest IH]; intros i sent_count w.
    { exists []. simpl. rewrite app_nil_r. unfold successes.
      repeat split; done || constructor. }
    simpl. rewrite exec_bind, eval_bind.
    change (eval get_is_running w) with (is_running (send_status (yielded w))).
    change (exec get_is_running w) with (yielded w).
    destruct (is_running (send_status (yielded w))) eqn:Hrun; simpl.
    2:{ exists []. simpl. rewrite exec_ret, eval_ret, app_nil_r, record_yielded.
        unfold successes.
        split_and!; try done; [lia | by rewrite sent_to_yielded |].
        intros Hq Hr. rewrite is_running_yielded in Hrun by done. congruence. }
    rewrite !exec_bind, !eval_bind.
    set (w1 := exec (update_send_status (with_current (i + 1))) (yielded w)).
    set (t := eval now w1). set (w2 := exec now w1).
    set (message := message_for default_message contact).
    set (out := eval (send_sms (phone contact) message dry_run) w2).
    set (w3 := exec (send_sms (phone contact) message dry_run) w2).
    destruct out as [ok res] eqn:Hout.
    rewrite !exec_bind, !eval_bind.
    set (e := mkLogEntry (i + 1) (phone contact) (name contact) (isoformat t) ok res).
    set (w4 := exec (update_send_status (λ st, with_results (results st ++ [e]) st)) w3).
    set (w5 := exec (log_queue_put e) w4).
    set (w6 := exec (pace delay len_contacts i) w5).
    set (sent_count' := if ok then sent_count + 1 else sent_count).
    destruct (IH (i + 1) sent_count' w6)
      as (new & Hrec & Hlen & Hidx & Hsame & Hsent & Hto & Hall).
    exists (e :: new).
    assert (record w6 = with_results (results (record w) ++ [e])
                          (with_current (i + 1) (record w))) as Hrec6.
    { subst w6. rewrite pace_record. subst w5.
      rewrite (log_queue_put_respects (kept record)) by (try tc_solve; side).
      subst w4. rewrite update_send_status_record by done.
      subst w3. rewrite send_sms_record. subst w2.
      rewrite (now_respects (kept record)) by (try tc_solve; side).
      subst w1. rewrite update_send_status_record by done.
      by rewrite record_yielded. }
    assert (sent_to w6 = sent_to w ++ [(phone contact, message)]) as Hto6.
    { subst w6. rewrite pace_sent_to. subst w5.
      rewrite (log_queue_put_respects (kept sent_to)) by (try tc_solve; side).
      subst w4.
      rewrite (update_send_status_respects (kept sent_to))
        by (try tc_solve; done || side).
      subst w3. rewrite send_sms_sent_to. subst w2.
      rewrite (now_respects (kept sent_to)) by (try tc_solve; side).
      subst w1.
      rewrite (update_send_status_respects (kept sent_to))
        by (try tc_solve; done || side).
      by rewrite sent_to_yielded. }
    assert (running_guarded w w6) as [Hsuffix Hrunning].
    { trans (yielded w); [apply running_guarded_yielded|].
      trans w1;
        [apply update_send_status_respects; try tc_solve; done || side|].
      trans w2; [apply now_respects; try tc_solve; side|].
      trans w3; [apply send_sms_respects; try tc_solve; side|].
      trans w4;
        [apply update_send_status_respects; try tc_solve; done || side|].
      trans w5; [apply log_queue_put_respects; try tc_solve; side|].
      apply pace_respects; try tc_solve; side. }
    cbv zeta. split_and!.
    - rewrite Hrec, Hrec6. apply progress_cons.
    - simpl. lia.
    - rewrite fmap_cons, Hidx. simpl.
      by replace (i + 1 + 1) with (S (i + 1)) by lia.
    - simpl. constructor; [done|]. done.
    - rewrite Hsent. subst sent_count'. unfold successes.
      rewrite filter_cons. destruct ok; simpl; lia.
    - rewrite Hto, Hto6. simpl. by rewrite <-(assoc_L (++)).
    - intros Hq Hr. simpl. f_equal. apply Hall.
      + by eapply Forall_suffix.
      + by rewrite Hrunning.
  Qed.
End LoopSpec.

(** ** One dispatch *)

Lemma is_running_false_record st :
  is_running st = false → with_is_running false st = st.
Proof. destruct st; simpl. by intros ->. Qed.

Lemma results_progress config contacts t new :
  results (progress 0 new (running_status config contacts t)) = new.
Proof. by destruct new. Qed.


Lemma commit_quota_exec today sent_count w :
  exec (commit_quota today sent_count) w
  = let c := read_config (config_file (yielded w)) in
    let c' := committed today sent_count c in
    emit (EvSaveConfig c')
         (with_config_file (Some c')
            (yielded (emit (EvLoadConfig c) (yielded w)))).
Proof. done. Qed.

Lemma dump_send_status_exec log_file w :
  exec (dump_send_status log_file) w
  = let doc := status_json (send_status (yielded w)) in
    emit (EvWriteLog log_file doc)
         (with_log_dir (Some (<[log_file := doc]> (default ∅ (log_dir (yielded w)))))
                       (yielded w)).
Proof. done. Qed.

Lemma set_send_status_exec st w :
  exec (set_send_status st) w = with_send_status st (yielded w).
Proof. done. Qed.

Lemma update_send_status_exec f w :
  exec (update_send_status f) w
  = with_send_status (f (send_status (yielded w))) (yielded w).
Proof. done. Qed.

Lemma mkdir_log_dir_exec w :
  exec mkdir_log_dir w
  = emit EvMkdir
      (with_log_dir (Some (default ∅ (log_dir (yielded w)))) (yielded w)).
Proof. done. Qed.

Lemma now_keeps {B} (f : World → B) :
  (∀ w, f (yielded w) = f w) → (∀ w ts, f (with_clock ts w) = f w) →
  keeps f now.
Proof. intros Hy Hc w. unfold kept. unfold_prim. simpl. case_match; simpl; by rewrite ?Hc, Hy. Qed.

Lemma now_guarded {B} P (f : World → B) :
  (∀ w, guarded P f w (yielded w)) → (∀ w ts, f (with_clock ts w) = f w) →
  respects (guarded P f) now.
Proof.
  intros Hy Hc w. unfold_prim. simpl. etrans; [apply Hy|].
  case_match; simpl; [done|]. split; simpl; [done|]. by rewrite Hc.
Qed.

Lemma progress_with_is_running b i new st :
  progress i new (with_is_running b st) = with_is_running b (progress i new st).
Proof. by destruct new. Qed.

Lemma sent_to_trace w w' l :
  trace w' = trace w ++ l →
  sent_to w'
  = sent_to w
    ++ omap (λ ev, match ev with EvSendSms p m => Some (p, m) | _ => None end) l.
Proof. unfold sent_to. intros ->. by rewrite omap_app. Qed.

Lemma saved_trace w w' l :
  trace w' = trace w ++ l →
  saved w'
  = saved w
    ++ omap (λ ev, match ev with EvSaveConfig c => Some c | _ => None end) l.
Proof. unfold saved. intros ->. by rewrite omap_app. Qed.

Lemma dispatch_spec dry_run config today contacts w :
  ∃ started log_file new pre disk,
    Dispatched dry_run config today contacts w
               (exec (dispatch dry_run config today contacts) w)
               started log_file new pre disk.
Proof.
  unfold dispatch. rewrite !exec_bind.
  set (t0 := eval now w). set (wa := exec now w).
  set (wb := exec (set_send_status (running_status config contacts t0)) wa).
  set (wc := exec mkdir_log_dir wb).
  set (t1 := eval now wc). set (wd := exec now wc).
  set (loop := send_loop dry_run (default_message config)
                 (send_delay_seconds config) (length contacts) 0 contacts 0).
  set (sent_count := eval loop wd). set (we := exec loop wd).
  set (wf := exec (update_send_status (with_is_running false)) we).
  destruct (send_loop_spec dry_run (default_message config)
              (send_delay_seconds config) (length contacts) contacts 0 0 wd)
    as (new & Hrec & Hlen & Hidx & Hsame & Hsent & Hto & Hall).
  cbv zeta in *. fold loop in Hrec, Hsent, Hto. fold we in Hrec, Hto.
  fold sent_count in Hsent. simpl in Hsent.
  set (wg := exec (if negb dry_run then commit_quota today sent_count else ret ()) wf).
  set (wh := exec (dump_send_status (log_file_name t1)) wg).
  (* the set-up, [w] to [wd] *)
  assert (send_status wb = running_status config contacts t0) as Hstb by done.
  assert (record wd = with_is_running false (running_status config contacts t0))
    as Hrecd.
  { subst wd. rewrite (now_keeps record) by (done || apply record_yielded).
    subst wc. rewrite mkdir_log_dir_exec. unfold record. simpl.
    by rewrite status_yielded, Hstb. }
  assert (trace wd = trace w ++ [EvMkdir]) as Htrd.
  { subst wd. rewrite (now_keeps trace) by (done || apply trace_yielded).
    subst wc. rewrite mkdir_log_dir_exec. simpl. rewrite trace_yielded.
    subst wb. rewrite set_send_status_exec. simpl. rewrite trace_yielded.
    subst wa. by rewrite (now_keeps trace) by (done || apply trace_yielded). }
  assert (log_dir wd = Some (default ∅ (log_dir w))) as Hldd.
  { subst wd. rewrite (now_keeps log_dir) by (done || apply log_dir_yielded).
    subst wc. rewrite mkdir_log_dir_exec. simpl. rewrite log_dir_yielded.
    subst wb. rewrite set_send_status_exec. simpl. rewrite log_dir_yielded.
    subst wa. by rewrite (now_keeps log_dir) by (done || apply log_dir_yielded). }
  assert (config_guarded w wb) as Hcfb.
  { trans wa; [apply now_guarded; done || apply config_guarded_yielded|].
    subst wb. rewrite set_send_status_exec.
    etrans; [apply config_guarded_yielded | done]. }
  assert (config_guarded wb wd) as Hcfd.
  { trans wc; [subst wc; rewrite mkdir_log_dir_exec;
               etrans; [apply config_guarded_yielded | done]|].
    apply now_guarded; done || apply config_guarded_yielded. }
  assert (running_guarded wb wd) as Hrund.
  { trans wc; [subst wc; rewrite mkdir_log_dir_exec;
               etrans; [apply running_guarded_yielded | done]|].
    apply now_guarded; done || apply running_guarded_yielded. }
  (* the loop, [wd] to [we] *)
  pose proof (send_loop_config dry_run (default_message config)
                (send_delay_seconds config) (length contacts) contacts 0 0 wd)
    as Hcfe.
  pose proof (send_loop_trace dry_run (default_message config)
                (send_delay_seconds config) (length contacts) contacts 0 0 wd)
    as [mid Htre].
  pose proof (send_loop_saved dry_run (default_message config)
                (send_delay_seconds config) (length contacts) contacts 0 0 wd)
    as Hsve.
  pose proof (send_loop_log_dir dry_run (default_message config)
                (send_delay_seconds config) (length contacts) contacts 0 0 wd)
    as Hlde.
  fold loop in Hcfe, Htre, Hsve, Hlde. fold we in Hcfe, Htre, Hsve, Hlde.
  unfold kept in Hsve, Hlde.
  (* the flag is cleared, [we] to [wf] *)
  assert (is_running (send_status wf) = false) as Hrunf by done.
  assert (record wf = record we) as Hrecf.
  { subst wf. by rewrite update_send_status_record. }
  assert (config_guarded we wf) as Hcff.
  { subst wf. rewrite update_send_status_exec.
    etrans; [apply config_guarded_yielded | done]. }
  assert (trace wf = trace we) as Htrf.
  { subst wf. rewrite update_send_status_exec. simpl. apply trace_yielded. }
  assert (log_dir wf = log_dir we) as Hldf.
  { subst wf. rewrite update_send_status_exec. simpl. apply log_dir_yielded. }
  (* the commit, [wf] to [wg] *)
  clearbody wf we wd.
  set (disk := read_config (config_file (yielded wf))).
  assert (trace wg
          = trace wf
            ++ (if dry_run then []
                else [EvLoadConfig disk;
                      EvSaveConfig (committed today sent_count disk)]))
    as Htrg.
  { subst wg. destruct dry_run; cbn [negb]; [by rewrite ?exec_ret, ?app_nil_r|].
    rewrite commit_quota_exec. simpl. rewrite !trace_yielded. simpl.
    by rewrite trace_yielded, <-(assoc_L (++)). }
  assert (record wg = record wf ∧ log_dir wg = log_dir wf
          ∧ is_running (send_status wg) = false
          ∧ requests wg `suffix_of` requests wf) as (Hrecg & Hldg & Hrung & Hrqg).
  { subst wg. destruct dry_run; cbn [negb]; [by rewrite ?exec_ret|].
    rewrite commit_quota_exec. unfold record. simpl.
    rewrite status_yielded, log_dir_yielded. simpl.
    rewrite status_yielded, log_dir_yielded. split_and!; try done.
    - apply stopped_yielded. simpl. by apply stopped_yielded.
    - etrans; [apply requests_yielded_suffix|]. simpl.
      apply requests_yielded_suffix. }
  assert (quiet (requests wf) →
          disk = read_config (config_file wf)
          ∧ config_file wg
            = if dry_run then config_file wf
              else Some (committed today sent_count disk)) as Hcfg.
  { intros Hq. subst disk. rewrite config_file_yielded by done.
    split; [done|]. subst wg. destruct dry_run; cbn [negb]; [done|].
    rewrite commit_quota_exec. simpl. by rewrite config_file_yielded. }
  (* the log file, [wg] to [wh] *)
  assert (send_status wh = send_status (yielded wg)) as Hsth by done.
  assert (send_status wh
          = with_is_running false
              (progress 0 new (running_status config contacts t0))) as Hst.
  { assert (is_running (send_status (yielded wg)) = false) as Hrunh
      by by apply stopped_yielded.
    rewrite Hsth, <-(is_running_false_record _ Hrunh), status_yielded.
    fold (record wg).
    by rewrite Hrecg, Hrecf, Hrec, Hrecd, progress_with_is_running. }
  assert (trace wh
          = trace wg ++ [EvWriteLog (log_file_name t1) (status_json (send_status wh))])
    as Htrh.
  { subst wh. rewrite dump_send_status_exec. simpl. by rewrite trace_yielded. }
  assert (config_guarded w wf) as [Hrqf Hcff'].
  { trans wb; [done|]. trans wd; [done|]. by trans we. }
  exists t0, (log_file_name t1), new, ([EvMkdir] ++ mid), disk. split.
  - done.
  - done.
  - done.
  - done.
  - intros Hq. apply Hall.
    + eapply Forall_suffix; [|done]. etrans; [apply Hrund | apply Hcfb].
    + destruct Hrund as [_ ->]; [by rewrite Hstb|].
      eapply Forall_suffix; [apply Hcfb | done].
  - rewrite (sent_to_trace _ _ _ Htrh), (sent_to_trace _ _ _ Htrg).
    replace (sent_to wf) with (sent_to we) by (unfold sent_to; by rewrite Htrf).
    rewrite Hto, (sent_to_trace _ _ _ Htrd). simpl.
    destruct dry_run; simpl; by rewrite !app_nil_r.
  - subst wh. rewrite dump_send_status_exec. simpl.
    by rewrite log_dir_yielded, Hldg, Hldf, Hlde, Hldd.
  - rewrite Htrh, Htrg, Htrf, Htre, Htrd, Hsent.
    by rewrite <-!(assoc_L (++)).
  - rewrite (saved_trace _ _ _ Htrh), (saved_trace _ _ _ Htrg).
    replace (saved wf) with (saved we) by (unfold saved; by rewrite Htrf).
    rewrite Hsve, (saved_trace _ _ _ Htrd), Hsent. simpl.
    destruct dry_run; simpl; by rewrite !app_nil_r.
  - trans (requests wg); [apply requests_yielded_suffix|]. by trans (requests wf).
  - intros Hq. destruct Hcfg as [-> Hcfg]; [by eapply Forall_suffix|].
    rewrite Hcff' by done. split; [done|].
    subst wh. rewrite dump_send_status_exec. simpl.
    rewrite config_file_yielded, Hcfg, Hsent.
    + by rewrite Hcff'.
    + eapply Forall_suffix; [|done]. by trans (requests wf).
Qed.

(** ** One run *)

Lemma prelude_spec w config0 contacts today :
  eval prelude w = (config0, contacts, today) →
  let w1 := exec prelude w in
  trace w1 = trace w ++ [EvLoadConfig config0]
  ∧ record w1 = record w
  ∧ log_dir w1 = log_dir w
  ∧ device w1 = device w
  ∧ config_guarded w w1
  ∧ running_guarded w w1
  ∧ stays_stopped w w1
  ∧ (quiet (requests w) → config0 = read_config (config_file w))
  ∧ Forall (λ c, enabled c) contacts.
Proof.
  unfold prelude. rewrite !eval_bind, !exec_bind. 
  set (wa := exec load_config w). set (wb := exec load_contacts wa).
  set (wc := exec now wb). rewrite eval_ret, exec_ret.
  intros [= <- <- <-]. cbv zeta.
  assert (wa = emit (EvLoadConfig (eval load_config w)) (yielded w)) as Hwa by done.
  assert (wb = yielded wa) as Hwb by done.
  split_and!.
  - subst wc. rewrite (now_keeps trace) by (done || apply trace_yielded).
    by rewrite Hwb, trace_yielded, Hwa; simpl; rewrite trace_yielded.
  - subst wc. rewrite (now_keeps record) by (done || apply record_yielded).
    by rewrite Hwb, record_yielded, Hwa; unfold record; simpl; rewrite status_yielded.
  - subst wc. rewrite (now_keeps log_dir) by (done || apply log_dir_yielded).
    by rewrite Hwb, log_dir_yielded, Hwa; simpl; rewrite log_dir_yielded.
  - subst wc. rewrite (now_keeps device) by (done || apply device_yielded).
    by rewrite Hwb, device_yielded, Hwa; simpl; rewrite device_yielded.
  - trans wa; [rewrite Hwa; etrans; [apply config_guarded_yielded | done]|].
    trans wb; [rewrite Hwb; apply config_guarded_yielded|].
    apply now_guarded; done || apply config_guarded_yielded.
  - trans wa; [rewrite Hwa; etrans; [apply running_guarded_yielded | done]|].
    trans wb; [rewrite Hwb; apply running_guarded_yielded|].
    apply now_guarded; done || apply running_guarded_yielded.
  - trans wa; [rewrite Hwa; etrans; [apply stopped_yielded | by unfold stays_stopped]|].
    trans wb; [rewrite Hwb; apply stopped_yielded|].
    apply now_respects; try tc_solve; side.
  - intros Hq. change (eval load_config w)
      with (read_config (config_file (yielded w))).
    by rewrite config_file_yielded.
  - apply Forall_forall. intros c Hc. by apply list_elem_of_filter in Hc as [? _].
Qed.

Lemma rollover_spec config0 today w :
  max_send_count (eval (rollover config0 today) w) = max_send_count config0
  ∧ daily_sent_count (eval (rollover config0 today) w)
    = effective_count today config0
  ∧ default_message (eval (rollover config0 today) w) = default_message config0
  ∧ if decide (daily_sent_date config0 ≠ today) then
      eval (rollover config0 today) w = reset_for today config0
      ∧ exec (rollover config0 today) w
        = emit (EvSaveConfig (reset_for today config0))
               (with_config_file (Some (reset_for today config0)) (yielded w))
    else
      eval (rollover config0 today) w = config0
      ∧ exec (rollover config0 today) w = w.
Proof. unfold rollover, effective_count. by case_decide. Qed.

Lemma send_all_sms_exec dry_run w config0 contacts today :
  eval prelude w = (config0, contacts, today) →
  exec (send_all_sms dry_run) w
  = let w1 := exec prelude w in
    let config := eval (rollover config0 today) w1 in
    let w2 := exec (rollover config0 today) w1 in
    match quota_gate (max_send_count config) (daily_sent_count config) contacts with
    | None =>
        exec (do t <- now;
              set_send_status (quota_exceeded_status (max_send_count config) t))
             w2
    | Some cs => exec (dispatch dry_run config today cs) w2
    end.
Proof.
  intros H. unfold send_all_sms. rewrite exec_bind, H. cbv beta iota.
  rewrite exec_bind. cbv zeta. by case_match.
Qed.

(** ** The claims *)

(** C2: a start request that finds [is_running] true is answered with
    success false and the "sending" error, starts no thread and leaves the
    world, [send_status] included, as it was. *)
Theorem start_while_running_rejected (request_dry_run : option bool) (w : World) :
  is_running (send_status w) = true →
  api_start_send request_dry_run w
  = {| reply := {| reply_success := false; reply_error := Some "送信中です" |};
       thread := None;
       after := w |}.
Proof. intros Hrun. unfold api_start_send. by rewrite Hrun. Qed.

Lemma start_while_running_rejected_witness :
  is_running (send_status busy_world) = true
  ∧ api_start_send (Some true) busy_world
    = {| reply := {| reply_success := false; reply_error := Some "送信中です" |};
         thread := None;
         after := busy_world |}.
Proof.
  split; [reflexivity|].
  apply (start_while_running_rejected (Some true) busy_world). reflexivity.
Defined.

Lemma run_adb_command_eval command w :
  eval (run_adb_command command) w = launch_answer w.
Proof.
  unfold run_adb_command, launch_answer. rewrite eval_bind.
  unfold subprocess_run. rewrite eval_bind. unfold eval at 1, exec at 1. simpl.
  rewrite device_yielded.
  rewrite (load_config_respects (kept device)) by (try tc_solve; side).
  by destruct (device w).
Qed.

Ltac grows_leaf :=
  intros ?w; unfold trace_grows, exec; simpl; repeat case_match; simpl;
  rewrite ?trace_yielded; by eauto using prefix_app_r.

(** C9: in dry-run mode [send_sms] returns success without a device
    command; otherwise its result is decided by the answer to the launch
    command alone, which is the first command it issues: success and
    "Sent" when the launch succeeded, whatever the later tap and key
    commands answer, and failure with the launch's stderr when it did
    not. *)
Theorem send_sms_success_means_launched (phone message : string) (w : World) :
  eval (send_sms phone message true) w = (true, "Dry run OK")
  ∧ device (exec (send_sms phone message true) w) = device w
  ∧ eval (send_sms phone message false) w
    = (let '(ok, _, stderr) := launch_answer w in
       if ok then (true, "Sent") else (false, "Launch failed: " +:+ stderr))
  ∧ ∃ c c' later,
      trace (exec (send_sms phone message false) w)
      = trace w
        ++ [EvSendSms phone message; EvLoadConfig c; EvLoadConfig c';
            EvAdb (dquote +:+ adb_path c' +:+ dquote +:+ " "
                   +:+ intent_cmd phone message)
                  (launch_answer w)]
        ++ later.
Proof.
  split_and!.
  - done.
  - unfold send_sms, exec. simpl. by rewrite device_yielded.
  - unfold send_sms. rewrite !eval_bind, run_adb_command_eval.
    replace (launch_answer
               (exec load_config (exec (note (EvSendSms phone message)) w)))
      with (launch_answer w).
    2:{ unfold launch_answer.
        by rewrite (load_config_respects (kept device))
          by (try tc_solve; side). }
    destruct (launch_answer w) as [[[] out] err]; simpl; [|done].
    by repeat (apply eval_bind_const; intros).
  - unfold send_sms. rewrite !exec_bind, run_adb_command_eval.
    set (w1 := exec (note (EvSendSms phone message)) w).
    set (c := eval load_config w1). set (w2 := exec load_config w1).
    set (w3 := exec (run_adb_command (intent_cmd phone message)) w2).
    assert (trace w2 = trace w ++ [EvSendSms phone message; EvLoadConfig c])
      as Htr2.
    { subst w2. unfold exec, load_config, bind, yield; simpl.
      rewrite trace_yielded. subst w1. unfold exec, note. simpl.
      by rewrite <-(assoc_L (++)). }
    assert (launch_answer w2 = launch_answer w) as Hla.
    { unfold launch_answer. subst w2.
      by rewrite (load_config_respects (kept device)) by (try tc_solve; side). }
    assert (trace w3
            = trace w2
              ++ [EvLoadConfig (eval load_config w2);
                  EvAdb (dquote +:+ adb_path (eval load_config w2) +:+ dquote
                         +:+ " " +:+ intent_cmd phone message)
                        (launch_answer w)]) as Htr3.
    { subst w3. unfold run_adb_command. rewrite exec_bind.
      set (w2' := exec load_config w2).
      assert (trace w2' = trace w2 ++ [EvLoadConfig (eval load_config w2)])
        as Htr2' by (unfold w2', exec, load_config, bind, yield; simpl;
                     by rewrite trace_yielded).
      assert (device (yielded w2') = device w2) as Hdev.
      { rewrite device_yielded. subst w2'.
        by rewrite (load_config_respects (kept device))
          by (try tc_solve; side). }
      rewrite <-Hla. unfold launch_answer. rewrite <-Hdev.
      clearbody w2'. unfold subprocess_run, exec, bind, yield. simpl.
      destruct (device (yielded w2')); simpl;
        by rewrite trace_yielded, Htr2', <-(assoc_L (++)). }
    lazymatch goal with
    | |- ∃ _ _ _, trace (exec ?m w3) = _ =>
        assert (respects trace_grows m) as Hm
    end.
    { destruct (launch_answer w2) as [[[] ?] ?]; simpl;
        respects_go grows_leaf. }
    destruct (Hm w3) as [later Hlater].
    exists c, (eval load_config w2), later.
    rewrite Hlater, Htr3, Htr2. by rewrite <-!(assoc_L (++)).
Qed.

Lemma progress_fields i new st :
  total (progress i new st) = total st
  ∧ start_time (progress i new st) = start_time st
  ∧ error (progress i new st) = error st
  ∧ max_count (progress i new st) = max_count st
  ∧ daily_sent_before (progress i new st) = daily_sent_before st.
Proof. by destruct new. Qed.


Lemma quota_exceeded_exec max_count w :
  let run_it :=
    do t <- now; set_send_status (quota_exceeded_status max_count t) in
  send_status (exec run_it w) = quota_exceeded_status max_count (eval now w)
  ∧ trace (exec run_it w) = trace w
  ∧ log_dir (exec run_it w) = log_dir w
  ∧ device (exec run_it w) = device w
  ∧ config_guarded w (exec run_it w).
Proof.
  cbv zeta. rewrite exec_bind, set_send_status_exec. simpl. split_and!.
  - done.
  - by rewrite trace_yielded, (now_keeps trace) by (done || apply trace_yielded).
  - by rewrite log_dir_yielded, (now_keeps log_dir)
      by (done || apply log_dir_yielded).
  - by rewrite device_yielded, (now_keeps device)
      by (done || apply device_yielded).
  - trans (exec now w); [apply now_guarded; done || apply config_guarded_yielded|].
    etrans; [apply config_guarded_yielded | done].
Qed.

(** C3, as stated, fails: with the quota used up, a start request is
    accepted and starts the worker thread. *)
Lemma quota_exhausted_start_spawns_thread :
  eval prelude exhausted_world
  = (exhausted_config, [alice; bob; carol], "2024-05-01")
  ∧ (max_send_count exhausted_config > 0)%Z
  ∧ (max_send_count exhausted_config
     - effective_count "2024-05-01" exhausted_config ≤ 0)%Z
  ∧ thread (api_start_send None exhausted_world) = Some false
  ∧ thread (api_start_send None exhausted_world) ≠ None
  ∧ reply_success (reply (api_start_send None exhausted_world)) = true.
Proof. by vm_compute. Qed.

(** C3, amended: with dailyQuota > 0 and no quota left for today, the
    start request is still accepted and starts the worker thread; that
    thread's [send_all_sms] sets [send_status] to the quota-exceeded record
    (not running, current 0, total 0, no results, the "Daily limit reached"
    error) and returns, having read the config and written nothing: no
    config write, no send, no device command, no queue entry, no log
    file. *)
Theorem quota_exhausted_run (request_dry_run : option bool) (w : World)
    (config0 : Config) (contacts : list Contact) (today : string) :
  eval prelude w = (config0, contacts, today) →
  (max_send_count config0 > 0)%Z →
  (max_send_count config0 - effective_count today config0 ≤ 0)%Z →
  is_running (send_status w) = false →
  let started := api_start_send request_dry_run w in
  let w' := exec (send_all_sms (default false request_dry_run)) w in
  started
  = {| reply := {| reply_success := true; reply_error := None |};
       thread := Some (default false request_dry_run);
       after := w |}
  ∧ (∃ t, send_status w' = quota_exceeded_status (max_send_count config0) t)
  ∧ trace w' = trace w ++ [EvLoadConfig config0]
  ∧ log_dir w' = log_dir w
  ∧ device w' = device w
  ∧ (quiet (requests w) → config_file w' = config_file w).
Proof.
  intros Hpre Hmax Hrem Hidle. cbv zeta.
  split; [unfold api_start_send; by rewrite Hidle|].
  rewrite (send_all_sms_exec _ _ _ _ _ Hpre). cbv zeta.
  destruct (prelude_spec _ _ _ _ Hpre)
    as (Htr & Hrec & Hld & Hdev & Hcf & _ & _ & Hc0 & _).
  destruct (rollover_spec config0 today (exec prelude w))
    as (-> & -> & _ & Hroll).
  unfold effective_count in *. case_decide as Hdate; [lia|].
  destruct Hroll as [_ ->].
  unfold quota_gate. rewrite decide_True, decide_True by done.
  destruct (quota_exceeded_exec (max_send_count config0) (exec prelude w))
    as (Hst & Htr' & Hld' & Hdev' & Hcf').
  cbv zeta in *. split_and!.
  - eauto.
  - by rewrite Htr'.
  - by rewrite Hld'.
  - by rewrite Hdev'.
  - intros Hq. destruct Hcf as [Hsuf Hcf]. destruct Hcf' as [_ ->].
    + by apply Hcf.
    + by eapply Forall_suffix.
Qed.

Lemma quota_exhausted_run_witness :
  let w' := exec (send_all_sms false) exhausted_world in
  api_start_send None exhausted_world
  = {| reply := {| reply_success := true; reply_error := None |};
       thread := Some false;
       after := exhausted_world |}
  ∧ (∃ t, send_status w' = quota_exceeded_status 2 t)
  ∧ trace w' = trace exhausted_world ++ [EvLoadConfig exhausted_config]
  ∧ log_dir w' = log_dir exhausted_world
  ∧ device w' = device exhausted_world
  ∧ (quiet (requests exhausted_world) →
     config_file w' = config_file exhausted_world).
Proof.
  apply (quota_exhausted_run None exhausted_world exhausted_config
           [alice; bob; carol] "2024-05-01").
  - reflexivity.
  - reflexivity.
  - vm_compute. discriminate.
  - reflexivity.
Defined.

(** The shape of a run that passes the quota check: the reads, the
    rollover write if the day is new, then the dispatch. *)
Lemma passed_run dry_run w config0 contacts today cs :
  eval prelude w = (config0, contacts, today) →
  quota_gate (max_send_count config0) (effective_count today config0) contacts
  = Some cs →
  ∃ config w2 started log_file new pre disk,
    max_send_count config = max_send_count config0
    ∧ daily_sent_count config = effective_count today config0
    ∧ default_message config = default_message config0
    ∧ trace w2
      = trace w ++ EvLoadConfig config0
        :: (if decide (daily_sent_date config0 ≠ today)
            then [EvSaveConfig (reset_for today config0)] else [])
    ∧ sent_to w2 = sent_to w
    ∧ log_dir w2 = log_dir w
    ∧ running_guarded w w2
    ∧ (quiet (requests w) →
       quiet (requests w2)
       ∧ read_config (config_file w2) = config
       ∧ config0 = read_config (config_file w))
    ∧ Dispatched dry_run config today cs w2 (exec (send_all_sms dry_run) w)
                 started log_file new pre disk.
Proof.
  intros Hpre Hgate. rewrite (send_all_sms_exec _ _ _ _ _ Hpre). cbv zeta.
  destruct (prelude_spec _ _ _ _ Hpre)
    as (Htr & Hrec & Hld & Hdev & Hcf & Hrun & _ & Hc0 & _).
  set (w1 := exec prelude w) in *.
  destruct (rollover_spec config0 today w1) as (Hmax & Hcount & Hmsg & Hroll).
  set (config := eval (rollover config0 today) w1) in *.
  set (w2 := exec (rollover config0 today) w1) in *.
  rewrite Hmax, Hcount, Hgate.
  destruct (dispatch_spec dry_run config today cs w2)
    as (started & log_file & new & pre & disk & Hd).
  exists config, w2, started, log_file, new, pre, disk.
  split_and!; try done.
  - case_decide; destruct Hroll as [_ ->]; simpl;
      by rewrite ?trace_yielded, Htr, <-?(assoc_L (++)).
  - apply (sent_to_trace w) in Htr. simpl in Htr. rewrite app_nil_r in Htr.
    case_decide; destruct Hroll as [_ ->]; [|done].
    by rewrite sent_to_emit, app_nil_r; unfold sent_to; simpl;
      rewrite trace_yielded.
  - case_decide; destruct Hroll as [_ ->]; simpl; by rewrite ?log_dir_yielded.
  - case_decide; destruct Hroll as [_ ->]; [|done].
    trans w1; [done|]. etrans; [apply running_guarded_yielded | done].
  - intros Hq. destruct Hcf as [Hsuf Hcf]. specialize (Hcf Hq).
    specialize (Hc0 Hq).
    assert (quiet (requests w1)) as Hq1 by by eapply Forall_suffix.
    case_decide; destruct Hroll as [Hcfg ->]; simpl; split_and!; try done.
    + eapply Forall_suffix; [apply requests_yielded_suffix | done].
    + by rewrite Hcfg, Hcf, <-Hc0.
Qed.



(** C5: a run that finds a stored date other than today's writes the
    config with the count at 0 and the date at today right after reading
    it, before anything else it does; the quota check then sees a count of
    0, so with a quota Q > 0 the run is not refused and dispatches the
    first Q enabled contacts, whatever the stored count was. *)
Theorem rollover_resets_quota (dry_run : bool) (w : World) (config0 : Config)
    (contacts : list Contact) (today : string) :
  eval prelude w = (config0, contacts, today) →
  daily_sent_date config0 ≠ today →
  let Q := max_send_count config0 in
  let w' := exec (send_all_sms dry_run) w in
  daily_sent_count (reset_for today config0) = 0%Z
  ∧ daily_sent_date (reset_for today config0) = today
  ∧ max_send_count (reset_for today config0) = Q
  ∧ (∃ later,
       trace w'
       = trace w
         ++ [EvLoadConfig config0; EvSaveConfig (reset_for today config0)]
         ++ later)
  ∧ ((Q > 0)%Z →
     quota_gate Q (effective_count today config0) contacts
     = Some (take (Z.to_nat Q) contacts)
     ∧ error (send_status w') = None
     ∧ daily_sent_before (send_status w') = Some 0%Z
     ∧ total (send_status w') = Z.to_nat Q `min` length contacts).
Proof.
  intros Hpre Hdate. cbv zeta. split_and!; try done.
  - assert (∃ cs, quota_gate (max_send_count config0)
                    (effective_count today config0) contacts = Some cs)
      as [cs Hgate].
    { unfold quota_gate, effective_count. rewrite (decide_True _ _ Hdate).
      repeat case_decide; eauto; lia. }
    destruct (passed_run dry_run _ _ _ _ _ Hpre Hgate)
      as (config & w2 & started & log_file & new & pre & disk & _ & _ & _
          & Htr & _ & _ & _ & _ & Hd).
    destruct Hd. rewrite d_trace0, Htr, (decide_True _ _ Hdate).
    eexists. by rewrite <-!(assoc_L (++)).
  - intros HQ.
    assert (quota_gate (max_send_count config0)
              (effective_count today config0) contacts
            = Some (take (Z.to_nat (max_send_count config0)) contacts))
      as Hgate.
    { unfold quota_gate, effective_count. rewrite (decide_True _ _ Hdate).
      rewrite decide_True, decide_False by lia. do 3 f_equal. lia. }
    split; [done|].
    destruct (passed_run dry_run _ _ _ _ _ Hpre Hgate)
      as (config & w2 & started & log_file & new & pre & disk & _ & Hcount
          & _ & _ & _ & _ & _ & _ & Hd).
    destruct Hd. rewrite d_status0.
    destruct (progress_fields 0 new
                (running_status config
                   (take (Z.to_nat (max_send_count config0)) contacts) started))
      as (Htot & _ & Herr & _ & Hbefore).
    simpl. rewrite Htot, Herr, Hbefore. simpl. rewrite Hcount, length_take.
    unfold effective_count. by rewrite (decide_True _ _ Hdate).
Qed.

Lemma rollover_resets_quota_witness :
  let w' := exec (send_all_sms false) next_day_world in
  daily_sent_count (reset_for "2024-05-02" exhausted_config) = 0%Z
  ∧ daily_sent_date (reset_for "2024-05-02" exhausted_config) = "2024-05-02"
  ∧ max_send_count (reset_for "2024-05-02" exhausted_config) = 2%Z
  ∧ (∃ later,
       trace w'
       = trace next_day_world
         ++ [EvLoadConfig exhausted_config;
             EvSaveConfig (reset_for "2024-05-02" exhausted_config)]
         ++ later)
  ∧ ((2 > 0)%Z →
     quota_gate 2 (effective_count "2024-05-02" exhausted_config)
                [alice; bob; carol]
     = Some (take (Z.to_nat 2) [alice; bob; carol])
     ∧ error (send_status w') = None
     ∧ daily_sent_before (send_status w') = Some 0%Z
     ∧ total (send_status w') = Z.to_nat 2 `min` length [alice; bob; carol]).
Proof.
  apply (rollover_resets_quota false next_day_world exhausted_config
           [alice; bob; carol] "2024-05-02").
  - reflexivity.
  - vm_compute. discriminate.
Defined.

(** C10: a run that is not a dry run and passes the quota check ends, before
    it writes its log file, by reading the config again and writing it back
    with the count it has just read plus the number of successful results,
    under the date taken when the run began; neither the count nor the date
    the run saw at its start enters the write. *)
Theorem commit_adds_to_disk_count (w : World) (config0 : Config)
    (contacts cs : list Contact) (today : string) :
  eval prelude w = (config0, contacts, today) →
  quota_gate (max_send_count config0) (effective_count today config0) contacts
  = Some cs →
  let w' := exec (send_all_sms false) w in
  let sent_count := successes (results (send_status w')) in
  ∃ before disk log_file,
    trace w'
    = trace w ++ before
      ++ [EvLoadConfig disk;
          EvSaveConfig (committed today sent_count disk);
          EvWriteLog log_file (status_json (send_status w'))]
    ∧ daily_sent_count (committed today sent_count disk)
      = (daily_sent_count disk + Z.of_nat sent_count)%Z
    ∧ daily_sent_date (committed today sent_count disk) = today.
Proof.
  intros Hpre Hgate. cbv zeta.
  destruct (passed_run false _ _ _ _ _ Hpre Hgate)
    as (config & w2 & started & log_file & new & pre & disk & _ & _ & _
        & Htr & _ & _ & _ & _ & Hd).
  destruct Hd.
  exists (EvLoadConfig config0
            :: (if decide (daily_sent_date config0 ≠ today)
                then [EvSaveConfig (reset_for today config0)] else [])
            ++ pre), disk, log_file.
  split; [|done].
  rewrite d_trace0, Htr, d_status0. simpl. rewrite results_progress.
  by rewrite <-!(assoc_L (++)).
Qed.

(** ** The event stream *)

Lemma stream_step_entries st s :
  entries_of (snd <$> delivered (stream_step st s)) ++ pending (stream_step st s)
  = entries_of (snd <$> delivered st) ++ pending st ++ emitted [s].
Proof.
  destruct s as [e|client]; simpl.
  - done.
  - unfold generate_next. destruct (pending st) as [|e q]; simpl;
      unfold entries_of; rewrite fmap_app, omap_app; simpl;
      by rewrite <-?(assoc_L (++)), ?app_nil_r.
Qed.

(** C6, as stated, fails: two clients hold the stream open, the worker
    emits one entry, and only the client whose [get] comes first receives
    it; the other finds the queue empty however often it asks. *)
Lemma second_subscriber_misses_entry :
  let st :=
    stream_run [Next 0; Next 1; Emit first_entry; Next 0; Next 1; Next 1]
               (mkStream [] []) in
  received 0 st = [FramePing; FrameData first_entry]
  ∧ received 1 st = [FramePing; FramePing; FramePing]
  ∧ ¬ FrameData first_entry ∈ received 1 st
  ∧ pending st = [].
Proof.
  split_and!; try reflexivity.
  intros H. vm_compute in H.
  repeat (apply elem_of_cons in H as [H|H]; [discriminate|]).
  by apply elem_of_nil in H.
Qed.

(** C6, amended: the clients share one queue, so every entry the worker
    emits goes to exactly one client, the one whose [get] takes it, in the
    order of emission, or is still queued; the frames handed out, over all
    clients, and the queue together hold the entries once each.  A turn of
    a client's generator that finds the queue empty yields the ping. *)
Theorem stream_delivers_each_entry_once (steps : list StreamStep) (st : Stream) :
  let st' := stream_run steps st in
  entries_of (snd <$> delivered st') ++ pending st'
  = entries_of (snd <$> delivered st) ++ pending st ++ emitted steps
  ∧ ∀ client,
      delivered (stream_step st' (Next client))
      = delivered st'
        ++ [(client, match pending st' with
                     | [] => FramePing
                     | e :: _ => FrameData e
                     end)].
Proof.
  cbv zeta. split.
  - revert st. induction steps as [|s steps IH]; intros st; simpl.
    + by rewrite app_nil_r.
    + unfold stream_run in *. simpl.
      rewrite IH, (assoc_L (++)), stream_step_entries.
      rewrite <-!(assoc_L (++)). do 2 f_equal.
      by destruct s.
  - intros client. simpl. unfold generate_next.
    by destruct (pending (stream_run steps st)).
Qed.

(** ** The log file *)

Lemma entry_json_inj e e' : entry_json e = entry_json e' → e = e'.
Proof.
  destruct e, e'. unfold entry_json. simpl. intros [= ?%Nat2Z.inj]. by subst.
Qed.

Lemma entries_json_inj (l l' : list LogEntry) :
  entry_json <$> l = entry_json <$> l' → l = l'.
Proof.
  assert (∀ (a b : json) (x y : list json), a :: x = b :: y → a = b ∧ x = y)
    as Hcons by (intros; by simplify_eq).
  revert l'. induction l as [|e l IH]; intros [|e' l'] H; try done.
  rewrite !fmap_cons in H.
  apply Hcons in H as [->%entry_json_inj ->%IH]. done.
Qed.

Lemma status_json_inj st st' : status_json st = status_json st' → st = st'.
Proof.
  destruct st as [r c t l s e m d], st' as [r' c' t' l' s' e' m' d'].
  unfold status_json. simpl. intros [= -> ?%Nat2Z.inj ?%Nat2Z.inj ?%entries_json_inj Hs Hrest].
  subst. assert (s = s') as -> by (destruct s, s'; simpl in *; congruence).
  destruct e, m, d, e', m', d'; simpl in *; congruence.
Qed.

Lemma success_flags_status_json st fields :
  fields
  = [("is_running", JBool (is_running st));
     ("current", JInt (Z.of_nat (current st)));
     ("total", JInt (Z.of_nat (total st)));
     ("results", JArr (entry_json <$> results st));
     ("start_time", from_option JStr JNull (start_time st))]
    ++ optional_key "error" JStr (error st)
    ++ optional_key "max_count" JInt (max_count st)
    ++ optional_key "daily_sent_before" JInt (daily_sent_before st) →
  dict_get "results" fields = Some (JArr (entry_json <$> results st))
  ∧ dict_get "start_time" fields = Some (from_option JStr JNull (start_time st))
  ∧ dict_get "total" fields = Some (JInt (Z.of_nat (total st)))
  ∧ success_flags fields = Some (success <$> results st).
Proof.
  intros ->. split_and!; try reflexivity.
  unfold success_flags.
  replace (dict_get "results" _)
    with (Some (JArr (entry_json <$> results st))) by reflexivity.
  simpl.
  apply mapM_Some_2, Forall2_fmap, Forall_Forall2_diag, Forall_forall.
  intros e _. reflexivity.
Qed.

Lemma flags_count (l : list LogEntry) :
  length (filter (λ b : bool, b) (success <$> l)) = successes l
  ∧ length (filter (λ b : bool, ¬ b) (success <$> l)) = failures l.
Proof.
  unfold successes, failures. induction l as [|e l [IH1 IH2]]; [done|].
  rewrite fmap_cons, !filter_cons. destruct (success e); simpl; auto.
Qed.

Lemma log_summary_status_json file st :
  log_summary file (status_json st)
  = Some {| summary_filename := file;
            summary_start_time := from_option JStr JNull (start_time st);
            summary_total := JInt (Z.of_nat (total st));
            summary_success := successes (results st);
            summary_failed := failures (results st) |}.
Proof.
  unfold status_json, log_summary.
  edestruct (success_flags_status_json st) as (_ & -> & -> & ->); [done|].
  simpl. by destruct (flags_count (results st)) as [-> ->].
Qed.

Lemma successes_failures l : successes l + failures l = length l.
Proof.
  unfold successes, failures. induction l as [|e l IH]; [done|].
  rewrite !filter_cons. destruct (success e); simpl; lia.
Qed.

(** C8: the log file a run writes holds the document of its final record,
    and that document determines the record: reading the file back through
    the log API returns the same document as the status API gives for the
    record in memory, no two records share a document (results in the same
    order with the same fields, the same total), and the success and
    failure counts that the log list derives from the file are those of
    the record. *)
Theorem log_round_trip (dry_run : bool) (w : World) (config0 : Config)
    (contacts cs : list Contact) (today : string) :
  eval prelude w = (config0, contacts, today) →
  quota_gate (max_send_count config0) (effective_count today config0) contacts
  = Some cs →
  let w' := exec (send_all_sms dry_run) w in
  let st := send_status w' in
  ∃ log_file,
    last (trace w') = Some (EvWriteLog log_file (status_json st))
    ∧ api_get_log_detail log_file w' = (api_send_status w', 200)
    ∧ (∀ st', status_json st' = api_send_status w' → st' = st)
    ∧ log_summary log_file (api_get_log_detail log_file w').1
      = Some {| summary_filename := log_file;
                summary_start_time := from_option JStr JNull (start_time st);
                summary_total := JInt (Z.of_nat (total st));
                summary_success := successes (results st);
                summary_failed := failures (results st) |}.
Proof.
  intros Hpre Hgate. cbv zeta.
  destruct (passed_run dry_run _ _ _ _ _ Hpre Hgate)
    as (config & w2 & started & log_file & new & pre & disk & _ & _ & _ & _
        & _ & _ & _ & _ & Hd).
  destruct Hd. exists log_file.
  assert (api_get_log_detail log_file (exec (send_all_sms dry_run) w)
          = (api_send_status (exec (send_all_sms dry_run) w), 200)) as Hget.
  { unfold api_get_log_detail, api_send_status. rewrite d_log_dir0. simpl.
    by rewrite lookup_insert_eq. }
  split_and!.
  - rewrite d_trace0, !(assoc_L (++)). apply last_snoc.
  - done.
  - intros st'. apply status_json_inj.
  - rewrite Hget. apply log_summary_status_json.
Qed.

Lemma log_round_trip_witness :
  let w' := exec (send_all_sms false) stopped_world in
  let st := send_status w' in
  ∃ log_file,
    last (trace w') = Some (EvWriteLog log_file (status_json st))
    ∧ api_get_log_detail log_file w' = (api_send_status w', 200)
    ∧ (∀ st', status_json st' = api_send_status w' → st' = st)
    ∧ log_summary log_file (api_get_log_detail log_file w').1
      = Some {| summary_filename := log_file;
                summary_start_time := from_option JStr JNull (start_time st);
                summary_total := JInt (Z.of_nat (total st));
                summary_success := successes (results st);
                summary_failed := failures (results st) |}.
Proof.
  apply (log_round_trip false stopped_world open_config [alice; bob; carol]
           [alice; bob] "2024-05-01").
  - reflexivity.
  - reflexivity.
Defined.

Lemma commit_adds_to_disk_count_witness :
  let w' := exec (send_all_sms false) midrun_reset_world in
  let sent_count := successes (results (send_status w')) in
  ∃ before disk log_file,
    trace w'
    = trace midrun_reset_world ++ before
      ++ [EvLoadConfig disk;
          EvSaveConfig (committed "2024-05-01" sent_count disk);
          EvWriteLog log_file (status_json (send_status w'))]
    ∧ daily_sent_count (committed "2024-05-01" sent_count disk)
      = (daily_sent_count disk + Z.of_nat sent_count)%Z
    ∧ daily_sent_date (committed "2024-05-01" sent_count disk) = "2024-05-01".
Proof.
  apply (commit_adds_to_disk_count midrun_reset_world
           (with_daily_sent_count 1 (with_daily_sent_date "2024-05-01"
              (with_daily_sent_count 0 default_config)))
           [alice; bob] [alice; bob] "2024-05-01").
  - reflexivity.
  - reflexivity.
Defined.

Example midrun_reset_commit :
  let w' := exec (send_all_sms false) midrun_reset_world in
  successes (results (send_status w')) = 2
  ∧ (daily_sent_count <$> config_file w') = Some 2%Z
  ∧ (daily_sent_date <$> config_file w') = Some "2024-05-01".
Proof. by vm_compute. Qed.

(** ** Failed sends *)

Lemma launch_answer_load_config w :
  launch_answer (exec load_config w) = launch_answer w.
Proof.
  unfold launch_answer.
  by rewrite (load_config_respects (kept device)) by (try tc_solve; side).
Qed.

Lemma send_sms_eval phone message w :
  eval (send_sms phone message false) w
  = (let '(ok, _, stderr) := launch_answer w in
     if ok then (true, "Sent") else (false, "Launch failed: " +:+ stderr)).
Proof.
  unfold send_sms. rewrite !eval_bind, run_adb_command_eval.
  rewrite launch_answer_load_config.
  change (launch_answer (exec (note (EvSendSms phone message)) w))
    with (launch_answer w).
  destruct (launch_answer w) as [[[] out] err]; simpl; [|done].
  by repeat (apply eval_bind_const; intros).
Qed.

Lemma send_sms_failed_device phone message w out err :
  launch_answer w = (false, out, err) →
  device (exec (send_sms phone message false) w) = tail (device w).
Proof.
  intros Hla. unfold send_sms. rewrite !exec_bind, run_adb_command_eval.
  rewrite launch_answer_load_config.
  change (launch_answer (exec (note (EvSendSms phone message)) w))
    with (launch_answer w).
  rewrite Hla. simpl. rewrite exec_ret.
  unfold run_adb_command. rewrite exec_bind.
  unfold subprocess_run, exec at 1, bind, yield. simpl.
  rewrite device_yielded.
  rewrite !(load_config_respects (kept device)) by (try tc_solve; side).
  change (device (exec (note (EvSendSms phone message)) w)) with (device w).
  destruct (device w) as [|r rs] eqn:E; simpl; [|done].
  rewrite device_yielded.
  by rewrite !(load_config_respects (kept device)) by (try tc_solve; side).
Qed.

(** One turn of the loop whose launch fails. *)
Lemma failed_send_turn default_message delay len_contacts i contact rest
    sent_count w out err :
  is_running (send_status (yielded w)) = true →
  launch_answer w = (false, out, err) →
  ∃ w' t,
    send_loop false default_message delay len_contacts i (contact :: rest)
              sent_count w
    = send_loop false default_message delay len_contacts (i + 1) rest
                sent_count w'
    ∧ record w'
      = with_results
          (results (record w)
           ++ [mkLogEntry (i + 1) (phone contact) (name contact) t false
                          ("Launch failed: " +:+ err)])
          (with_current (i + 1) (record w))
    ∧ sent_to w' = sent_to w ++ [(phone contact, message_for default_message contact)]
    ∧ device w' = tail (device w).
Proof.
  intros Hrun Hla. simpl. rewrite bind_unfold.
  change (eval get_is_running w) with (is_running (send_status (yielded w))).
  change (exec get_is_running w) with (yielded w).
  rewrite Hrun. simpl. rewrite !bind_unfold.
  set (w1 := exec (update_send_status (with_current (i + 1))) (yielded w)).
  set (t := eval now w1). set (w2 := exec now w1).
  set (message := message_for default_message contact).
  assert (device w2 = device w) as Hdev2.
  { subst w2. rewrite (now_keeps device) by (done || apply device_yielded).
    subst w1. rewrite update_send_status_exec. simpl.
    by rewrite !device_yielded. }
  assert (launch_answer w2 = (false, out, err)) as Hla2
    by (unfold launch_answer in *; by rewrite Hdev2).
  rewrite send_sms_eval, Hla2. cbv beta iota. rewrite !bind_unfold.
  set (w3 := exec (send_sms (phone contact) message false) w2).
  set (e := mkLogEntry (i + 1) (phone contact) (name contact) (isoformat t)
                       false ("Launch failed: " +:+ err)).
  set (w4 := exec (update_send_status (λ st, with_results (results st ++ [e]) st)) w3).
  set (w5 := exec (log_queue_put e) w4).
  set (w6 := exec (pace delay len_contacts i) w5).
  exists w6, (isoformat t). split_and!.
  - done.
  - subst w6. rewrite pace_record. subst w5.
    rewrite (log_queue_put_respects (kept record)) by (try tc_solve; side).
    subst w4. rewrite update_send_status_record by done.
    subst w3. rewrite send_sms_record. subst w2.
    rewrite (now_respects (kept record)) by (try tc_solve; side).
    subst w1. rewrite update_send_status_record by done.
    by rewrite record_yielded.
  - subst w6. rewrite pace_sent_to. subst w5.
    rewrite (log_queue_put_respects (kept sent_to)) by (try tc_solve; side).
    subst w4.
    rewrite (update_send_status_respects (kept sent_to))
      by (try tc_solve; done || side).
    subst w3. rewrite send_sms_sent_to. subst w2.
    rewrite (now_respects (kept sent_to)) by (try tc_solve; side).
    subst w1.
    rewrite (update_send_status_respects (kept sent_to))
      by (try tc_solve; done || side).
    by rewrite sent_to_yielded.
  - subst w6.
    rewrite (pace_respects (kept device)) by (try tc_solve; side).
    subst w5.
    rewrite (log_queue_put_respects (kept device)) by (try tc_solve; side).
    subst w4. rewrite update_send_status_exec. simpl. rewrite device_yielded.
    subst w3. by rewrite (send_sms_failed_device _ _ _ _ _ Hla2), Hdev2.
Qed.

(** C7: a send that fails is recorded and the loop goes on.  In a turn of
    the loop whose launch command fails, the entry appended has success
    false and the launch's error as result, [send_sms] was called once and
    one device command was used (no retry), the count of successes is
    unchanged and the loop continues with the next contact.  So a run that
    is not stopped has one entry per dispatched contact, sent to once each
    and in order, whatever the device answers.  The record holds no
    success or failure counter: the log list counts them from the
    results. *)
Theorem failed_sends_do_not_stop_the_run (w : World) (config0 : Config)
    (contacts cs : list Contact) (today : string) :
  eval prelude w = (config0, contacts, today) →
  quota_gate (max_send_count config0) (effective_count today config0) contacts
  = Some cs →
  unstopped (requests w) →
  let w' := exec (send_all_sms false) w in
  let st := send_status w' in
  (∀ default_message delay len_contacts i contact rest sent_count w0 out err,
     is_running (send_status (yielded w0)) = true →
     launch_answer w0 = (false, out, err) →
     ∃ w1 t,
       send_loop false default_message delay len_contacts i (contact :: rest)
                 sent_count w0
       = send_loop false default_message delay len_contacts (i + 1) rest
                   sent_count w1
       ∧ record w1
         = with_results
             (results (record w0)
              ++ [mkLogEntry (i + 1) (phone contact) (name contact) t false
                             ("Launch failed: " +:+ err)])
             (with_current (i + 1) (record w0))
       ∧ sent_to w1
         = sent_to w0 ++ [(phone contact, message_for default_message contact)]
       ∧ device w1 = tail (device w0))
  ∧ length (results st) = length cs
  ∧ sent_to w'
    = sent_to w
      ++ ((λ c, (phone c, message_for (default_message config0) c)) <$> cs)
  ∧ successes (results st) + failures (results st) = length (results st)
  ∧ ∀ file,
      log_summary file (api_send_status w')
      = Some {| summary_filename := file;
                summary_start_time := from_option JStr JNull (start_time st);
                summary_total := JInt (Z.of_nat (total st));
                summary_success := successes (results st);
                summary_failed := failures (results st) |}.
Proof.
  intros Hpre Hgate Hun. cbv zeta.
  destruct (passed_run false _ _ _ _ _ Hpre Hgate)
    as (config & w2 & started & log_file & new & pre & disk & _ & _ & Hmsg
        & _ & Hto & _ & [Hsuf _] & _ & Hd).
  destruct Hd.
  assert (length new = length cs) as Hlen
    by (apply d_all0; by eapply Forall_suffix).
  split_and!.
  - intros. by eapply failed_send_turn.
  - by rewrite d_status0; simpl; rewrite results_progress.
  - by rewrite d_sent_to0, Hto, Hlen, firstn_all, Hmsg.
  - apply successes_failures.
  - intros file. apply log_summary_status_json.
Qed.

Lemma failed_sends_do_not_stop_the_run_witness :
  let w' := exec (send_all_sms false) flaky_world in
  let st := send_status w' in
  (∀ default_message delay len_contacts i contact rest sent_count w0 out err,
     is_running (send_status (yielded w0)) = true →
     launch_answer w0 = (false, out, err) →
     ∃ w1 t,
       send_loop false default_message delay len_contacts i (contact :: rest)
                 sent_count w0
       = send_loop false default_message delay len_contacts (i + 1) rest
                   sent_count w1
       ∧ record w1
         = with_results
             (results (record w0)
              ++ [mkLogEntry (i + 1) (phone contact) (name contact) t false
                             ("Launch failed: " +:+ err)])
             (with_current (i + 1) (record w0))
       ∧ sent_to w1
         = sent_to w0 ++ [(phone contact, message_for default_message contact)]
       ∧ device w1 = tail (device w0))
  ∧ length (results st) = length [alice; bob]
  ∧ sent_to w'
    = sent_to flaky_world
      ++ ((λ c, (phone c, message_for (default_message open_config) c))
            <$> [alice; bob])
  ∧ successes (results st) + failures (results st) = length (results st)
  ∧ ∀ file,
      log_summary file (api_send_status w')
      = Some {| summary_filename := file;
                summary_start_time := from_option JStr JNull (start_time st);
                summary_total := JInt (Z.of_nat (total st));
                summary_success := successes (results st);
                summary_failed := failures (results st) |}.
Proof.
  apply (failed_sends_do_not_stop_the_run flaky_world open_config
           [alice; bob; carol] [alice; bob] "2024-05-01").
  - reflexivity.
  - reflexivity.
  - apply Forall_nil. exact I.
Defined.

Example flaky_run :
  let w' := exec (send_all_sms false) flaky_world in
  (success <$> results (send_status w')) = [false; true]
  ∧ (result <$> results (send_status w'))
    = ["Launch failed: error: no devices"; "Sent"]
  ∧ (daily_sent_count <$> config_file w') = Some 1%Z.
Proof. by vm_compute. Qed.

(** ** A start while a worker is alive *)

Lemma bind_ext {A B} (m m' : M A) (k k' : A → M B) w :
  (∀ w, m w = m' w) → (∀ x w, k x w = k' x w) → bind m k w = bind m' k' w.
Proof.
  intros Hm Hk. unfold bind. rewrite Hm. destruct (m' w). apply Hk.
Qed.

(** With nothing at its points, the loop with points is the loop. *)
Lemma send_loop_no_hook dry_run default_message delay len_contacts
    contacts i sent_count w :
  send_loop_with no_hook dry_run default_message delay len_contacts i contacts
                 sent_count w
  = send_loop dry_run default_message delay len_contacts i contacts
              sent_count w.
Proof.
  revert i sent_count w.
  induction contacts as [|contact rest IH]; intros i sent_count w; [done|].
  simpl. rewrite !bind_unfold.
  destruct (negb (eval get_is_running w)); [done|].
  rewrite !bind_unfold.
  destruct (eval (send_sms _ _ _) _) as [ok res].
  rewrite !bind_unfold. apply IH.
Qed.

Lemma send_all_sms_no_hook dry_run w :
  send_all_sms_with no_hook dry_run w = send_all_sms dry_run w.
Proof.
  unfold send_all_sms_with, send_all_sms.
  apply bind_ext; [done|]. intros [[config contacts] today] w1.
  apply bind_ext; [done|]. intros config' w2.
  destruct (quota_gate _ _ _) as [cs|]; [|done].
  unfold dispatch_with, dispatch.
  do 4 (apply bind_ext; [done|]; intros ? ?).
  apply bind_ext; [|done].
  intros w'. apply send_loop_no_hook.
Qed.

(** C4, where the code fails it: three enabled contacts, a quota of two.
    When the first worker's send to Alice has returned and its entry is
    not yet appended, the operator's stop and start are served; the start
    is accepted and the second worker runs to its end before the first
    goes on.  The first then appends its entry for Alice to the record of
    the second: the indexes read 1, 2, 1, the third entry stands for a
    contact at position 1 of a dispatched list of two, and [current] is 2
    with three results. *)
Theorem restart_during_send_breaks_record :
  let w := flaky_free_world in
  let w' := exec (send_all_sms_with (restart_during 0 None) false) w in
  let st := send_status w' in
  eval prelude w = (open_config, [alice; bob; carol], "2024-05-01")
  ∧ quota_gate (max_send_count open_config)
               (effective_count "2024-05-01" open_config) [alice; bob; carol]
    = Some [alice; bob]
  ∧ thread (api_start_send None (api_stop_send w)) = Some false
  ∧ is_running st = false
  ∧ index <$> results st = [1; 2; 1]
  ∧ entry_name <$> results st = ["Alice"; "Bob"; "Alice"]
  ∧ current st = 2
  ∧ total st = 2
  ∧ length (results st) = 3
  ∧ index <$> results st ≠ seq 1 (length (results st))
  ∧ current st ≠ length (results st)
  ∧ ¬ Forall2 same_contact (take (length (results st)) [alice; bob])
                           (results st).
Proof.
  cbv zeta. split_and!; try (vm_compute; done).
  intros H. apply Forall2_length in H. vm_compute in H. discriminate.
Qed.

(** ** The daily quota over a sequence of runs *)

Lemma quota_gate_length Q daily_sent contacts cs :
  (Q > 0)%Z →
  quota_gate Q daily_sent contacts = Some cs →
  (Z.of_nat (length cs) ≤ Q - daily_sent)%Z.
Proof.
  intros HQ. unfold quota_gate. rewrite decide_True by done.
  case_decide; intros [= <-]. rewrite length_take. lia.
Qed.

Lemma successes_le l : successes l ≤ length l.
Proof. apply length_filter. Qed.

Lemma send_all_sms_within_quota Q dry_run w :
  (Q > 0)%Z →
  quiet (requests w) →
  persisted_quota w = Q →
  (persisted_count w ≤ Q)%Z →
  let w' := exec (send_all_sms dry_run) w in
  quiet (requests w') ∧ within_quota Q (dry_run, w, w').
Proof.
  intros HQ Hq Hmax Hcount. cbv zeta.
  destruct (eval prelude w) as [[config0 contacts] today] eqn:Hpre.
  destruct (prelude_spec _ _ _ _ Hpre)
    as (Htr1 & _ & _ & _ & [Hsuf1 Hcf1] & _ & _ & Hc0 & _).
  specialize (Hc0 Hq). specialize (Hcf1 Hq).
  unfold persisted_quota, persisted_count in *. rewrite <-Hc0 in Hmax, Hcount.
  assert (effective_count today config0 ≤ Q)%Z as Heff
    by (unfold effective_count; case_decide; lia).
  destruct (quota_gate (max_send_count config0)
              (effective_count today config0) contacts) as [cs|] eqn:Hgate.
  - destruct (passed_run dry_run _ _ _ _ _ Hpre Hgate)
      as (config & w2 & started & log_file & new & pre & disk & Hmax2 & Hcount2
          & _ & Htr2 & _ & _ & [Hsuf2 _] & Hquiet & Hd).
    destruct (Hquiet Hq) as (Hq2 & Hcf2 & _). destruct Hd.
    destruct (d_config0 Hq2) as [Hdisk Hcf'].
    rewrite Hcf2 in Hdisk. subst disk.
    assert (max_send_count config0 > 0)%Z as HQ0 by lia.
    pose proof (quota_gate_length _ _ _ _ HQ0 Hgate) as Hlen.
    rewrite Hmax in Hlen.
    pose proof (successes_le new) as Hle.
    assert (daily_sent_count (committed today (successes new) config)
            ≤ Q)%Z as Hcommitted. { simpl. lia. }
    split; [by eapply Forall_suffix|].
    unfold within_quota, persisted_quota, persisted_count. split_and!.
    + rewrite Hcf'. destruct dry_run; [by rewrite Hcf2, Hmax2|]. simpl.
      by rewrite Hmax2.
    + rewrite Hcf'. destruct dry_run; [rewrite Hcf2; lia|]. done.
    + apply (saved_trace w) in Htr2. rewrite d_saved0, Htr2.
      rewrite <-(assoc_L (++)), drop_app_length.
      apply Forall_app. split.
      * simpl. case_decide; repeat constructor. simpl. lia.
      * destruct dry_run; by repeat constructor.
    + intros _. exists (effective_count today config0).
      rewrite d_status0.
      destruct (progress_fields 0 new (running_status config cs started))
        as (Htot & _ & _ & _ & Hbefore).
      simpl. rewrite results_progress, Htot, Hbefore. simpl.
      rewrite Hcount2. split_and!; try done.
      intros ->. rewrite Hcf'. simpl. by rewrite Hcount2.
  - rewrite (send_all_sms_exec _ _ _ _ _ Hpre). cbv zeta.
    destruct (rollover_spec config0 today (exec prelude w))
      as (-> & -> & _ & Hroll).
    rewrite Hgate.
    assert (daily_sent_date config0 = today) as Hdate.
    { unfold quota_gate, effective_count in Hgate.
      rewrite decide_True in Hgate by lia.
      destruct (decide (daily_sent_date config0 ≠ today)) as [|Hd];
        [|by apply dec_stable].
      rewrite decide_False in Hgate by lia. done. }
    rewrite decide_False in Hroll by (by intros ?). destruct Hroll as [_ ->].
    destruct (quota_exceeded_exec (max_send_count config0) (exec prelude w))
      as (Hst & Htr' & _ & _ & [Hsuf' Hcf']).
    cbv zeta in *. 
    assert (quiet (requests (exec prelude w))) as Hq1 by by eapply Forall_suffix.
    split; [by eapply Forall_suffix|].
    unfold within_quota, persisted_quota, persisted_count. split_and!.
    + by rewrite Hcf', Hcf1, <-Hc0.
    + by rewrite Hcf', Hcf1, <-Hc0.
    + rewrite Htr1 in Htr'. apply (saved_trace w) in Htr'. rewrite Htr'.
      rewrite drop_app_length. simpl. constructor.
    + by rewrite Hst.
Qed.

(** C1, as stated, fails, in two ways.  A settings POST that arrives
    during a run stores the counter it carries, and the commit adds the
    run's successes to that one: with a quota of 2, yesterday's counter of
    2 posted again and two sends today, the counter on disk ends at 4.
    And a stop followed by a start during the first turn of the loop puts
    a second worker next to the first, both having read the counter 0:
    they send to three contacts and the counter ends at 3. *)
Lemma quota_exceeded_by_post_or_restart :
  (let w := posted_world in
   let w' := exec (send_all_sms false) w in
   persisted_quota w = 2%Z
   ∧ persisted_count w = 2%Z
   ∧ persisted_quota w' = 2%Z
   ∧ daily_sent_date (read_config (config_file w')) = "2024-05-02"
   ∧ successes (results (send_status w')) = 2
   ∧ persisted_count w' = 4%Z
   ∧ ¬ (persisted_count w' ≤ persisted_quota w')%Z)
  ∧ (let w := flaky_free_world in
     let w' := exec (send_all_sms_with (restart_during 0 None) false) w in
     persisted_quota w = 2%Z
     ∧ persisted_count w = 0%Z
     ∧ persisted_quota w' = 2%Z
     ∧ daily_sent_date (read_config (config_file w')) = "2024-05-01"
     ∧ length (sent_to w') = 3
     ∧ persisted_count w' = 3%Z
     ∧ ¬ (persisted_count w' ≤ persisted_quota w')%Z).
Proof.
  cbv zeta. split; split_and!; vm_compute; done.
Qed.

(** C1, amended: with a quota Q > 0 on disk, a counter within Q, runs that
    come one after the other (every worker has returned when the next
    starts) and no request that writes the config during them, every run
    of any sequence of runs leaves the counter on disk within Q, and so is
    every config the runs write on the way: each run dispatches at most Q
    minus the counter contacts and adds only the successes among them. *)
Theorem quota_never_exceeded (Q : Z) (flags : list bool) (w : World) :
  (Q > 0)%Z →
  quiet (requests w) →
  persisted_quota w = Q →
  (persisted_count w ≤ Q)%Z →
  Forall (within_quota Q) (run_all flags w).
Proof.
  intros HQ. revert w.
  induction flags as [|dry_run flags IH]; intros w Hq Hmax Hcount; simpl.
  { constructor. }
  destruct (send_all_sms_within_quota Q dry_run w HQ Hq Hmax Hcount)
    as [Hq' Hrun].
  constructor; [done|]. destruct Hrun as (Hmax' & Hcount' & _).
  by apply IH.
Qed.

(** A quota of two and three contacts: the first run sends to two, the
    second and third are refused. *)
Lemma quota_never_exceeded_witness :
  Forall (within_quota 2) (run_all [false; false; false] flaky_free_world).
Proof.
  apply (quota_never_exceeded 2 [false; false; false] flaky_free_world).
  - reflexivity.
  - apply Forall_nil. exact I.
  - reflexivity.
  - vm_compute. discriminate.
Defined.

(** * Further properties of the code

    As above the worker has the record to itself: no start is accepted
    while it is alive. *)

(** ** Stop *)



(** ** The counter as the dashboard and the run see it *)






(** ** Log files *)





(** ** No cap, no config file *)






(** ** The commands of one send *)











(** ** Dry runs *)






(** ** Stop, then start *)

